(** * ChresoTutVid: access control, session lifecycle and audit logging

    A shallow embedding of the role guard ([src/lib/sudoGuard.ts]), the
    feature-flag registry ([src/lib/featureFlags.ts]), the two route guards
    ([ProtectedRoute], [RBACGuard]), the auth provider and login page
    ([src/hooks/useAuth.tsx], [src/views/LoginPage.tsx]), the audit helpers
    ([logAction], [logAuthEvent]) and the row-level-security policies of
    [supabase/schema.sql] with its v2 migration.

    Strings are sequences of ASCII characters; on those, the JavaScript
    [toLowerCase] and [trim] coincide with the functions defined below. *)

From Stdlib Require Import String Ascii List Bool Arith Lia.
From stdpp Require Import base strings gmap list.

Open Scope string_scope.

(** ** JavaScript values used by the guards *)

Module Js.

(** A parameter of TypeScript type [string | null | undefined]. *)
Inductive maybe_string : Type :=
  | js_undefined
  | js_null
  | js_string (s : string).

#[global] Instance maybe_string_eq_dec : EqDecision maybe_string.
Proof. solve_decision. Defined.

(** [!v] is false exactly on a non-empty string. *)
Definition truthy (v : maybe_string) : bool :=
  match v with
  | js_string s => negb (bool_decide (s = EmptyString))
  | _ => false
  end.

(** [v ?? null] *)
Definition nullish_to_null (v : maybe_string) : option string :=
  match v with
  | js_string s => Some s
  | _ => None
  end.

(** [import.meta.env[key]] read as a [maybe_string]. *)
Definition of_lookup (o : option string) : maybe_string :=
  match o with
  | Some s => js_string s
  | None => js_undefined
  end.

Definition lower_char (c : ascii) : ascii :=
  let n := nat_of_ascii c in
  if ((65 <=? n) && (n <=? 90))%nat then ascii_of_nat (n + 32) else c.

(** [String.prototype.toLowerCase] *)
Fixpoint toLowerCase (s : string) : string :=
  match s with
  | EmptyString => EmptyString
  | String c s' => String (lower_char c) (toLowerCase s')
  end.

(** White space and line terminators removed by [trim]:
    TAB, LF, VT, FF, CR and SPACE. *)
Definition isWhiteSpace (c : ascii) : bool :=
  let n := nat_of_ascii c in
  (((9 <=? n) && (n <=? 13)) || (n =? 32))%nat.

Fixpoint trimStart (s : string) : string :=
  match s with
  | EmptyString => EmptyString
  | String c s' => if isWhiteSpace c then trimStart s' else s
  end.

Fixpoint trimEnd (s : string) : string :=
  match s with
  | EmptyString => EmptyString
  | String c s' =>
      match trimEnd s' with
      | EmptyString => if isWhiteSpace c then EmptyString else String c EmptyString
      | t => String c t
      end
  end.

(** [String.prototype.trim] *)
Definition trim (s : string) : string := trimEnd (trimStart s).

End Js.

Import Js.

(** ** Feature flags ([src/lib/featureFlags.ts]) *)

Module FeatureFlags.

(** [import.meta.env]: an object used as a map from keys to strings. *)
Abbreviation Env := (gmap string string).

Definition readEnvFlag (env : Env) (key : string) : bool :=
  bool_decide (env !! key = Some "true").

Record Flags : Type := {
  MAGIC_LINK : bool;
  STAFF_DOMAIN_ENFORCEMENT : bool;
  RBAC_V2 : bool;
  SUDO_ADMIN : bool;
}.

Definition FEATURE_FLAGS (env : Env) : Flags := {|
  MAGIC_LINK := readEnvFlag env "VITE_ENABLE_MAGIC_LINK_AUTH";
  STAFF_DOMAIN_ENFORCEMENT := readEnvFlag env "VITE_ENABLE_STAFF_DOMAIN_ENFORCEMENT";
  RBAC_V2 := readEnvFlag env "VITE_ENABLE_ROLE_BASED_ACCESS_V2";
  SUDO_ADMIN := readEnvFlag env "VITE_ENABLE_SUDO_ADMIN";
|}.

(** The part of [useFeatureFlags] that [RBACGuard] reads. *)
Definition rbacV2Enabled (env : Env) : bool := RBAC_V2 (FEATURE_FLAGS env).

End FeatureFlags.

Import FeatureFlags.

(** ** Roles *)

Definition STAFF : string := "STAFF".
Definition STUDENT : string := "STUDENT".
Definition ADMIN : string := "ADMIN".

(** [SUDO_ROLE] of [sudoGuard.ts]. *)
Definition SUDO_ROLE : string := "SUDO".

Definition PERSISTABLE_ROLES : list string := [STAFF; STUDENT; ADMIN].

(** [Array.prototype.includes] on strings. *)
Definition includes (l : list string) (x : string) : bool :=
  existsb (fun y => bool_decide (y = x)) l.


(** ** The database ([supabase/schema.sql] and the v2 migration) *)

Module Schema.

(** [schema.sql] alone, or [schema.sql] followed by the additive
    [auth_upgrade_v2] migration. *)
Inductive SchemaVersion : Type := BaseSchema | AuthUpgradeV2.

(** A row of [public.users]. *)
Record User : Type := {
  id : string;
  id_number : string;
  role : string;
  name : string;
  email : option string;
  is_active : bool;
  email_verified : option bool;
  auth_provider : option string;
}.

(** A row of [public.tutorials] (the columns the policies read). *)
Record Tutorial : Type := {
  title : string;
  video_url : string;
  target_role : string;
  created_by : option string;
}.

(** A row of [public.audit_logs]. *)
Record AuditLog : Type := {
  user_id : option string;
  user_role : string;
  action : string;
  details : option string;
}.

(** [users] is keyed by its primary key [id]; [auth_users] holds the ids of
    [auth.users], the target of the foreign key of [users.id]. *)
Record Database : Type := {
  version : SchemaVersion;
  auth_users : gset string;
  users : gmap string User;
  tutorials : list Tutorial;
  audit_logs : list AuditLog;
}.

(** The errors the store answers with; [infinite_recursion] is SQLSTATE
    42P17, infinite recursion detected in policy for relation [relation]. *)
Inductive PgError : Type :=
  | rls_violation (table : string)
  | infinite_recursion (relation : string)
  | check_violation (constraint : string)
  | unique_violation (constraint : string)
  | foreign_key_violation (constraint : string)
  | PGRST116
  | fetch_error (message : string).

Inductive Command : Type := SELECT | INSERT | UPDATE | DELETE.

#[global] Instance Command_eq_dec : EqDecision Command.
Proof. solve_decision. Defined.

(** The row a command touches; the constructor names the table. *)
Inductive Row : Type :=
  | users_row (u : User)
  | tutorials_row (t : Tutorial)
  | audit_logs_row (a : AuditLog).

(** [EXISTS (SELECT 1 FROM public.users WHERE id = auth.uid() AND role = r)] *)
Definition uid_has_role (db : Database) (uid : option string) (r : string) : bool :=
  match uid with
  | Some me =>
      match users db !! me with
      | Some u => bool_decide (role u = r)
      | None => false
      end
  | None => false
  end.

(** The three tables with row-level security enabled. *)
Inductive Table : Type := users_table | tutorials_table | audit_logs_table.

#[global] Instance Table_eq_dec : EqDecision Table.
Proof. solve_decision. Defined.

Definition table_of (r : Row) : Table :=
  match r with
  | users_row _ => users_table
  | tutorials_row _ => tutorials_table
  | audit_logs_row _ => audit_logs_table
  end.

Definition relname (t : Table) : string :=
  match t with
  | users_table => "users"
  | tutorials_table => "tutorials"
  | audit_logs_table => "audit_logs"
  end.

(** A permissive policy: the table it is [ON], the command it is [FOR]
    ([None] is [FOR ALL]), the tables its expression reads in a sub-select
    ([EXISTS (SELECT 1 FROM public.users ...)]), and its [USING] /
    [WITH CHECK] expression. *)
Record Policy : Type := {
  policyname : string;
  tbl : Table;
  cmd : option Command;
  sublinks : list Table;
  qual : Database -> option string -> Row -> bool;
}.

Definition on_users (f : User -> bool) (r : Row) : bool :=
  match r with users_row u => f u | _ => false end.

Definition on_tutorials (f : Tutorial -> bool) (r : Row) : bool :=
  match r with tutorials_row t => f t | _ => false end.

Definition on_audit_logs (f : AuditLog -> bool) (r : Row) : bool :=
  match r with audit_logs_row a => f a | _ => false end.

Definition base_policies : list Policy := [
  {| policyname := "users_read_own"; tbl := users_table; cmd := Some SELECT;
     sublinks := [];
     qual := fun db uid => on_users (fun u => bool_decide (uid = Some (id u))) |};
  {| policyname := "admins_read_all_users"; tbl := users_table; cmd := Some SELECT;
     sublinks := [users_table];
     qual := fun db uid => on_users (fun _ => uid_has_role db uid ADMIN) |};
  {| policyname := "admins_insert_users"; tbl := users_table; cmd := Some INSERT;
     sublinks := [users_table];
     qual := fun db uid => on_users (fun _ => uid_has_role db uid ADMIN) |};
  {| policyname := "admins_update_users"; tbl := users_table; cmd := Some UPDATE;
     sublinks := [users_table];
     qual := fun db uid => on_users (fun _ => uid_has_role db uid ADMIN) |};
  {| policyname := "admins_delete_users"; tbl := users_table; cmd := Some DELETE;
     sublinks := [users_table];
     qual := fun db uid => on_users (fun _ => uid_has_role db uid ADMIN) |};
  {| policyname := "users_read_role_tutorials"; tbl := tutorials_table; cmd := Some SELECT;
     sublinks := [users_table];
     qual := fun db uid => on_tutorials (fun t =>
       uid_has_role db uid ADMIN || uid_has_role db uid (target_role t)) |};
  {| policyname := "admins_insert_tutorials"; tbl := tutorials_table; cmd := Some INSERT;
     sublinks := [users_table];
     qual := fun db uid => on_tutorials (fun _ => uid_has_role db uid ADMIN) |};
  {| policyname := "admins_update_tutorials"; tbl := tutorials_table; cmd := Some UPDATE;
     sublinks := [users_table];
     qual := fun db uid => on_tutorials (fun _ => uid_has_role db uid ADMIN) |};
  {| policyname := "admins_delete_tutorials"; tbl := tutorials_table; cmd := Some DELETE;
     sublinks := [users_table];
     qual := fun db uid => on_tutorials (fun _ => uid_has_role db uid ADMIN) |};
  {| policyname := "admins_read_logs"; tbl := audit_logs_table; cmd := Some SELECT;
     sublinks := [users_table];
     qual := fun db uid => on_audit_logs (fun _ => uid_has_role db uid ADMIN) |};
  {| policyname := "authenticated_insert_logs"; tbl := audit_logs_table; cmd := Some INSERT;
     sublinks := [];
     qual := fun db uid => on_audit_logs (fun _ => bool_decide (uid <> None)) |}
].

Definition sudo_policies : list Policy := [
  {| policyname := "sudo_read_all_users"; tbl := users_table; cmd := Some SELECT;
     sublinks := [users_table];
     qual := fun db uid => on_users (fun _ => uid_has_role db uid SUDO_ROLE) |};
  {| policyname := "sudo_insert_users"; tbl := users_table; cmd := Some INSERT;
     sublinks := [users_table];
     qual := fun db uid => on_users (fun _ => uid_has_role db uid SUDO_ROLE) |};
  {| policyname := "sudo_update_users"; tbl := users_table; cmd := Some UPDATE;
     sublinks := [users_table];
     qual := fun db uid => on_users (fun _ => uid_has_role db uid SUDO_ROLE) |};
  {| policyname := "sudo_delete_users"; tbl := users_table; cmd := Some DELETE;
     sublinks := [users_table];
     qual := fun db uid => on_users (fun u =>
       uid_has_role db uid SUDO_ROLE && negb (bool_decide (uid = Some (id u)))) |};
  {| policyname := "sudo_read_all_logs"; tbl := audit_logs_table; cmd := Some SELECT;
     sublinks := [users_table];
     qual := fun db uid => on_audit_logs (fun _ => uid_has_role db uid SUDO_ROLE) |};
  {| policyname := "sudo_read_all_tutorials"; tbl := tutorials_table; cmd := Some SELECT;
     sublinks := [users_table];
     qual := fun db uid => on_tutorials (fun _ => uid_has_role db uid SUDO_ROLE) |};
  {| policyname := "sudo_manage_tutorials"; tbl := tutorials_table; cmd := None;
     sublinks := [users_table];
     qual := fun db uid => on_tutorials (fun _ => uid_has_role db uid SUDO_ROLE) |}
].

Definition policies (v : SchemaVersion) : list Policy :=
  match v with
  | BaseSchema => base_policies
  | AuthUpgradeV2 => base_policies ++ sudo_policies
  end.

Definition applies_to (p : Policy) (c : Command) : bool :=
  match cmd p with
  | None => true
  | Some c' => bool_decide (c' = c)
  end.

(** The commands whose policies a statement needs on its target: its own,
    and those of [SELECT] as well when it reads the table's columns (a
    [WHERE] clause, [RETURNING]). *)
Definition commands (c : Command) (reads : bool) : list Command :=
  if reads then [c; SELECT] else [c].

(** The policies attached to a reference to table [t] by a statement that
    needs the policies of the commands [cs]. *)
Definition attached (ps : list Policy) (t : Table) (cs : list Command) : list Policy :=
  List.filter (fun p => bool_decide (tbl p = t) && existsb (applies_to p) cs) ps.

Definition first_some {A B : Type} (f : A -> option B) (l : list A) : option B :=
  fold_right (fun a r => match f a with Some b => Some b | None => r end) None l.

(** Policy expansion, as the rewriter does it before the statement runs and
    before it looks at any row. The policies attached to [t] are added to
    the statement. When one of them holds a sub-select, [t] must not be a
    table whose policies are already being expanded ([active]): that is the
    error 42P17. Otherwise [t] becomes active and every table read by a
    sub-select is expanded in turn, as a [SELECT]. The result is the
    relation the recursion was detected in. A chain of tables that are not
    yet active has at most three members, so [fuel] 4 is never used up. *)
Fixpoint recursion_in (fuel : nat) (ps : list Policy) (active : list Table)
    (t : Table) (cs : list Command) : option Table :=
  match fuel with
  | 0 => None
  | S fuel' =>
      match flat_map sublinks (attached ps t cs) with
      | [] => None
      | subs =>
          if bool_decide (t ∈ active) then Some t
          else first_some (fun t' => recursion_in fuel' ps (t :: active) t' [SELECT]) subs
      end
  end.

(** The error, if any, that policy expansion ends in for command [c] on
    table [t]. *)
Definition expansion_error (v : SchemaVersion) (t : Table) (c : Command) (reads : bool)
  : option PgError :=
  (fun t' => infinite_recursion (relname t'))
    <$> recursion_in 4 (policies v) [] t (commands c reads).

(** Some permissive policy for command [c] accepts the row. The expressions
    are evaluated only once policy expansion has succeeded. *)
Definition permitted (db : Database) (uid : option string) (c : Command) (r : Row) : bool :=
  existsb (fun p => bool_decide (tbl p = table_of r) && applies_to p c && qual p db uid r)
    (policies (version db)).

(** Row-level security is enabled on the three tables. A command on a row
    first goes through policy expansion; when that succeeds the row is
    accepted when, for each command whose policies the statement needs,
    some policy accepts it. *)
Definition policy_check (db : Database) (uid : option string) (c : Command) (reads : bool)
    (r : Row) : PgError + bool :=
  match expansion_error (version db) (table_of r) c reads with
  | Some e => inl e
  | None => inr (forallb (fun c' => permitted db uid c' r) (commands c reads))
  end.

(** The command is granted on the row: the check ends without an error and
    accepts the row. *)
Definition authorize (db : Database) (uid : option string) (c : Command) (r : Row) : bool :=
  match policy_check db uid c false r with
  | inr b => b
  | inl _ => false
  end.

(** The [users_role_check] constraint currently installed. *)
Definition users_role_check (v : SchemaVersion) (r : string) : bool :=
  match v with
  | BaseSchema => includes [STAFF; STUDENT; ADMIN] r
  | AuthUpgradeV2 => includes [STAFF; STUDENT; ADMIN; SUDO_ROLE] r
  end.

(** The check on [auth_provider] added by the migration. *)
Definition users_auth_provider_check (v : SchemaVersion) (p : option string) : bool :=
  match v, p with
  | BaseSchema, _ => true
  | AuthUpgradeV2, None => true
  | AuthUpgradeV2, Some s => includes ["legacy"; "magic_link"; "password"] s
  end.

Definition id_number_taken (db : Database) (n : string) : bool :=
  existsb (fun kv => bool_decide (id_number (snd kv) = n)) (map_to_list (users db)).

Definition with_users (db : Database) (us : gmap string User) : Database :=
  {| version := version db; auth_users := auth_users db; users := us;
     tutorials := tutorials db; audit_logs := audit_logs db |}.

Definition with_audit_logs (db : Database) (ls : list AuditLog) : Database :=
  {| version := version db; auth_users := auth_users db; users := users db;
     tutorials := tutorials db; audit_logs := ls |}.

(** [INSERT INTO public.users] issued by the client as [uid], without
    [RETURNING]: policy expansion, the [WITH CHECK] of the insert policies,
    the CHECK constraints in the order of their names, the unique indexes,
    the foreign key. *)
Definition insert_user (db : Database) (uid : option string) (u : User) : PgError + Database :=
  match policy_check db uid INSERT false (users_row u) with
  | inl e => inl e
  | inr false => inl (rls_violation "users")
  | inr true =>
      if negb (users_auth_provider_check (version db) (auth_provider u))
        then inl (check_violation "users_auth_provider_check")
      else if negb (users_role_check (version db) (role u))
        then inl (check_violation "users_role_check")
      else if bool_decide (is_Some (users db !! id u)) then inl (unique_violation "users_pkey")
      else if id_number_taken db (id_number u)
        then inl (unique_violation "users_id_number_key")
      else if negb (bool_decide (id u ∈ auth_users db))
        then inl (foreign_key_violation "users_id_fkey")
      else inr (with_users db (<[id u := u]> (users db)))
  end.

(** [SELECT * FROM public.users WHERE id = userId] followed by [.single()]:
    the error of policy expansion when there is one; otherwise the row when
    it exists and is visible to [uid], and [PGRST116] when it is not. *)
Definition select_user_single (db : Database) (uid : option string) (userId : string)
  : PgError + User :=
  match expansion_error (version db) users_table SELECT true with
  | Some e => inl e
  | None =>
      match users db !! userId with
      | Some u => if permitted db uid SELECT (users_row u) then inr u else inl PGRST116
      | None => inl PGRST116
      end
  end.

(** The [SECURITY DEFINER] function [public.log_action]: it reads the
    caller's role, falls back to ['UNKNOWN'], and appends one row; the
    foreign key of [audit_logs.user_id] refuses a caller without a row in
    [public.users]. *)
Definition log_action (db : Database) (uid : option string)
    (p_action : string) (p_details : option string) : PgError + Database :=
  let v_user_role :=
    match uid with
    | Some me => role <$> (users db !! me)
    | None => None
    end in
  let row := {| user_id := uid; user_role := default "UNKNOWN" v_user_role;
                action := p_action; details := p_details |} in
  match uid with
  | Some me =>
      if bool_decide (is_Some (users db !! me))
      then inr (with_audit_logs db (audit_logs db ++ [row]))
      else inl (foreign_key_violation "audit_logs_user_id_fkey")
  | None => inr (with_audit_logs db (audit_logs db ++ [row]))
  end.

End Schema.

(** ** The client's world: backend, console and provider state *)

Record JsError : Type := { message : string }.

(** What the external auth service answers with. *)
Record Session : Type := {
  session_user_id : string;
  session_user_email : option string;
}.

Record SignUpData : Type := {
  signUp_user : option string;
  signUp_session : option Session;
}.

Record AuthService : Type := {
  signInWithPassword_response : string -> string -> JsError + Session;
  signUp_response : string -> string -> JsError + SignUpData;
}.

(** How a request to the store ends when it does not reach the database:
    the promise resolves with an [error] field, or it rejects. *)
Inductive Transport : Type :=
  | online
  | resolves_with_error (e : Schema.PgError)
  | rejects (e : JsError).

Inductive ConsoleLine : Type :=
  | console_error (text : string)
  | console_warn (text : string)
  | console_info (text : string).

(** The three pieces of React state held by [AuthProvider]. *)
Record AuthState : Type := {
  session : option Session;
  user : option Schema.User;
  isLoading : bool;
}.

Record World : Type := {
  db : Schema.Database;
  uid : option string;
  auth_service : AuthService;
  transport : Transport;
  clock : string;
  console : list ConsoleLine;
  rpc_calls : list (string * option string);
  users_inserts : list Schema.User;
  auth : AuthState;
}.

Definition set_db (d : Schema.Database) (w : World) : World :=
  {| db := d; uid := uid w; auth_service := auth_service w; transport := transport w;
     clock := clock w; console := console w; rpc_calls := rpc_calls w;
     users_inserts := users_inserts w; auth := auth w |}.

Definition set_uid (u : option string) (w : World) : World :=
  {| db := db w; uid := u; auth_service := auth_service w; transport := transport w;
     clock := clock w; console := console w; rpc_calls := rpc_calls w;
     users_inserts := users_inserts w; auth := auth w |}.

Definition set_console (c : list ConsoleLine) (w : World) : World :=
  {| db := db w; uid := uid w; auth_service := auth_service w; transport := transport w;
     clock := clock w; console := c; rpc_calls := rpc_calls w;
     users_inserts := users_inserts w; auth := auth w |}.

Definition set_rpc_calls (c : list (string * option string)) (w : World) : World :=
  {| db := db w; uid := uid w; auth_service := auth_service w; transport := transport w;
     clock := clock w; console := console w; rpc_calls := c;
     users_inserts := users_inserts w; auth := auth w |}.

Definition set_users_inserts (l : list Schema.User) (w : World) : World :=
  {| db := db w; uid := uid w; auth_service := auth_service w; transport := transport w;
     clock := clock w; console := console w; rpc_calls := rpc_calls w;
     users_inserts := l; auth := auth w |}.

Definition set_auth (a : AuthState) (w : World) : World :=
  {| db := db w; uid := uid w; auth_service := auth_service w; transport := transport w;
     clock := clock w; console := console w; rpc_calls := rpc_calls w;
     users_inserts := users_inserts w; auth := a |}.

(** ** A state-and-exception monad for the client code *)

Inductive Completion (A : Type) : Type :=
  | Return (a : A)
  | Throw (e : JsError).

Arguments Return {A} a.
Arguments Throw {A} e.

Definition App (A : Type) : Type := World -> Completion A * World.

#[global] Instance App_ret : MRet App := fun A a w => (Return a, w).

#[global] Instance App_bind : MBind App := fun A B f m w =>
  match m w with
  | (Return a, w') => f a w'
  | (Throw e, w') => (Throw e, w')
  end.

Definition throw {A : Type} (e : JsError) : App A := fun w => (Throw e, w).

(** [try { body } catch (error) { handler }] *)
Definition try_catch {A : Type} (body : App A) (handler : JsError -> App A) : App A :=
  fun w =>
    match body w with
    | (Return a, w') => (Return a, w')
    | (Throw e, w') => handler e w'
    end.

Definition get_world : App World := fun w => (Return w, w).

Definition modify (f : World -> World) : App unit := fun w => (Return tt, f w).

Definition console_log (l : ConsoleLine) : App unit :=
  modify (fun w => set_console (console w ++ [l]) w).

(** [new Date().toISOString()] *)
Definition Date_toISOString : App string := fun w => (Return (clock w), w).

(** ** JSON.stringify on flat objects of strings *)

Module Json.

Definition hex_digit (n : nat) : ascii :=
  ascii_of_nat (if (n <? 10)%nat then 48 + n else 87 + n).

Definition dquote : string := String (ascii_of_nat 34) EmptyString.

Definition escape_char (c : ascii) : string :=
  let n := nat_of_ascii c in
  if (n =? 34)%nat then "\" ++ dquote
  else if (n =? 92)%nat then "\\"
  else if (n =? 8)%nat then "\b"
  else if (n =? 9)%nat then "\t"
  else if (n =? 10)%nat then "\n"
  else if (n =? 12)%nat then "\f"
  else if (n =? 13)%nat then "\r"
  else if (n <? 32)%nat
    then "\u00" ++ String (hex_digit (n / 16)) (String (hex_digit (n mod 16)) EmptyString)
  else String c EmptyString.

Fixpoint escape (s : string) : string :=
  match s with
  | EmptyString => EmptyString
  | String c s' => escape_char c ++ escape s'
  end.

Definition quote (s : string) : string := dquote ++ escape s ++ dquote.

Fixpoint members (fields : list (string * string)) : string :=
  match fields with
  | [] => EmptyString
  | [(k, v)] => quote k ++ ":" ++ quote v
  | (k, v) :: rest => quote k ++ ":" ++ quote v ++ "," ++ members rest
  end.

Definition stringify (fields : list (string * string)) : string :=
  "{" ++ members fields ++ "}".

(** [{ ...fields, k: v }]: an existing key keeps its place and takes the
    new value, a new key goes last. *)
Fixpoint spread_with (fields : list (string * string)) (k v : string)
  : list (string * string) :=
  match fields with
  | [] => [(k, v)]
  | (k', v') :: rest =>
      if bool_decide (k' = k) then (k, v) :: rest else (k', v') :: spread_with rest k v
  end.

End Json.

(** ** The audit emitters ([src/lib/supabase.ts], [src/lib/authEventLog.ts]) *)

Module Audit.

(** [await supabase.rpc('log_action', { p_action, p_details })]: the request
    is recorded in [rpc_calls]; it rejects, resolves with an error, or runs
    [public.log_action] as the current [uid]. *)
Definition rpc_log_action (p_action : string) (p_details : option string)
  : App (option Schema.PgError) :=
  fun w =>
    let w1 := set_rpc_calls (rpc_calls w ++ [(p_action, p_details)]) w in
    match transport w with
    | rejects e => (Throw e, w1)
    | resolves_with_error e => (Return (Some e), w1)
    | online =>
        match Schema.log_action (db w) (uid w) p_action p_details with
        | inr db' => (Return None, set_db db' w1)
        | inl e => (Return (Some e), w1)
        end
    end.

Definition logAction (action : string) (details : option string) : App unit :=
  error ← rpc_log_action action details;
  match error with
  | Some _ => console_log (console_error "Error logging action:")
  | None => mret tt
  end.

Definition logAuthEvent (eventType : string) (details : list (string * string)) : App unit :=
  timestamp ← Date_toISOString;
  console_log (console_info ("[AuthEvent] " ++ eventType ++ ":"));;
  try_catch
    (let detailsString := Json.stringify (Json.spread_with details "logged_at" timestamp) in
     _ ← rpc_log_action ("AUTH_EVENT:" ++ eventType) (Some detailsString);
     mret tt)
    (fun _ => console_log (console_error "[AuthEvent] Failed to persist log:")).

End Audit.

(** ** The SUDO guard ([src/lib/sudoGuard.ts]) *)

Module SudoGuard.

Definition isRolePersistable (role : maybe_string) : bool :=
  match role with
  | js_string r => if truthy role then includes PERSISTABLE_ROLES r else false
  | _ => false
  end.

(** The [rpc] call is not awaited: what it resolves to is only logged, and
    a rejection does not reach the caller. *)
Definition assertNotSudoForPersistence (role : maybe_string) (context : string) : App unit :=
  if decide (role = js_string SUDO_ROLE) then
    let errorMessage :=
      "[SUDO_GUARD] BLOCKED: Attempt to persist SUDO role to database in " ++ context in
    console_log (console_error errorMessage);;
    timestamp ← Date_toISOString;
    try_catch
      (error ← Audit.rpc_log_action "SUDO_PERSISTENCE_BLOCKED"
         (Some (Json.stringify [("context", context); ("timestamp", timestamp)]));
       match error with
       | Some _ => console_log (console_error "[SUDO_GUARD] Failed to log:")
       | None => mret tt
       end)
      (fun _ => mret tt);;
    throw {| message := "SUDO role cannot be persisted to database" |}
  else mret tt.

Definition sanitizeRoleForPersistence (role : maybe_string) : App (option string) :=
  if negb (truthy role) then mret None
  else if decide (role = js_string SUDO_ROLE) then
    console_log (console_warn "[SUDO_GUARD] Sanitized SUDO role to null for persistence");;
    mret None
  else if isRolePersistable role then mret (nullish_to_null role)
  else mret None.

Definition isSudoSession (env : Env) (userEmail : maybe_string) : bool :=
  if negb (SUDO_ADMIN (FEATURE_FLAGS env)) then false
  else
    let sudoEmail := of_lookup (env !! "VITE_SUDO_ADMIN_EMAIL") in
    match sudoEmail, userEmail with
    | js_string s, js_string u =>
        if negb (truthy sudoEmail) || negb (truthy userEmail) then false
        else bool_decide (trim (toLowerCase u) = trim (toLowerCase s))
    | _, _ => false
    end.

Definition getEffectiveRole (env : Env) (dbRole userEmail : maybe_string) : option string :=
  if isSudoSession env userEmail then Some SUDO_ROLE
  else nullish_to_null dbRole.

End SudoGuard.

(** ** The auth provider ([src/hooks/useAuth.tsx]) *)

Module AuthProvider.

Definition setSession (s : option Session) : App unit :=
  modify (fun w => set_auth
    {| session := s; user := user (auth w); isLoading := isLoading (auth w) |} w).

Definition setUser (u : option Schema.User) : App unit :=
  modify (fun w => set_auth
    {| session := session (auth w); user := u; isLoading := isLoading (auth w) |} w).

Definition setIsLoading (b : bool) : App unit :=
  modify (fun w => set_auth
    {| session := session (auth w); user := user (auth w); isLoading := b |} w).

(** [supabase.from('users').select('*').eq('id', userId).single()] *)
Definition fetchUserProfile (userId : string) : App (option Schema.User) :=
  w ← get_world;
  match transport w with
  | rejects e => throw e
  | resolves_with_error _ =>
      console_log (console_error "Error fetching user profile:");; mret None
  | online =>
      match Schema.select_user_single (db w) (uid w) userId with
      | inr u => mret (Some u)
      | inl _ => console_log (console_error "Error fetching user profile:");; mret None
      end
  end.

(** The listener registered with [supabase.auth.onAuthStateChange]. *)
Definition onAuthStateChange (event : string) (s : option Session) : App unit :=
  setSession s;;
  match s with
  | Some s' =>
      profile ← fetchUserProfile (session_user_id s');
      setUser profile
  | None => setUser None
  end;;
  setIsLoading false.

(** [supabase.auth.signInWithPassword]: the service decides; on success the
    client holds the new session, so later requests run as its user. *)
Definition signInWithPassword (email password : string) : App (option JsError) :=
  w ← get_world;
  match signInWithPassword_response (auth_service w) email password with
  | inr s => modify (set_uid (Some (session_user_id s)));; mret None
  | inl e => mret (Some e)
  end.

Definition signIn (email password : string) : App (option JsError) :=
  setIsLoading true;;
  error ← signInWithPassword email password;
  match error with
  | None => Audit.logAction "LOGIN" (Some ("User logged in: " ++ email))
  | Some _ => mret tt
  end;;
  setIsLoading false;;
  mret error.

(** [supabase.auth.signUp] *)
Definition auth_signUp (email password : string) : App (JsError + SignUpData) :=
  w ← get_world;
  match signUp_response (auth_service w) email password with
  | inr d =>
      match signUp_session d with
      | Some s => modify (set_uid (Some (session_user_id s)))
      | None => mret tt
      end;;
      mret (inr d)
  | inl e => mret (inl e)
  end.

(** [supabase.from('users').insert(userInsert)]: the row asked for is
    recorded in [users_inserts]; the request rejects, resolves with an
    error, or runs the insert as the current [uid]. *)
Definition users_insert (u : Schema.User) : App (option Schema.PgError) :=
  fun w =>
    let w1 := set_users_inserts (users_inserts w ++ [u]) w in
    match transport w with
    | rejects e => (Throw e, w1)
    | resolves_with_error e => (Return (Some e), w1)
    | online =>
        match Schema.insert_user (db w) (uid w) u with
        | inr db' => (Return None, set_db db' w1)
        | inl e => (Return (Some e), w1)
        end
    end.

Record UserData : Type := {
  ud_name : string;
  ud_id_number : string;
  ud_role : string;
}.

Inductive SignUpError : Type :=
  | auth_error (e : JsError)
  | plain_error (e : JsError)
  | profile_error (e : Schema.PgError).

(** The columns [userInsert] does not set take their defaults. *)
Definition userInsert (v : Schema.SchemaVersion) (userId email : string) (userData : UserData)
  : Schema.User :=
  {| Schema.id := userId;
     Schema.id_number := ud_id_number userData;
     Schema.role := ud_role userData;
     Schema.name := ud_name userData;
     Schema.email := Some email;
     Schema.is_active := true;
     Schema.email_verified := None;
     Schema.auth_provider :=
       match v with Schema.BaseSchema => None | Schema.AuthUpgradeV2 => Some "legacy" end |}.

Definition signUp (email password : string) (userData : UserData) : App (option SignUpError) :=
  setIsLoading true;;
  r ← auth_signUp email password;
  match r with
  | inl authError => setIsLoading false;; mret (Some (auth_error authError))
  | inr authData =>
      match signUp_user authData with
      | None =>
          setIsLoading false;;
          mret (Some (plain_error {| message := "Failed to create user account" |}))
      | Some userId =>
          w ← get_world;
          profileError ← users_insert (userInsert (Schema.version (db w)) userId email userData);
          match profileError with
          | Some e =>
              console_log (console_error "Error creating user profile:");;
              setIsLoading false;;
              mret (Some (profile_error e))
          | None =>
              Audit.logAction "SIGNUP" (Some ("New user registered: " ++ email));;
              setIsLoading false;;
              mret None
          end
      end
  end.

(** The value handed to consumers of [useAuth]. *)
Record AuthContextValue : Type := {
  ctx_session : option Session;
  ctx_user : option Schema.User;
  ctx_role : option string;
  ctx_isLoading : bool;
  ctx_isAuthenticated : bool;
}.

Definition useAuth (a : AuthState) : AuthContextValue :=
  {| ctx_session := session a;
     ctx_user := user a;
     ctx_role := Schema.role <$> user a;
     ctx_isLoading := isLoading a;
     ctx_isAuthenticated :=
       bool_decide (is_Some (session a)) && bool_decide (is_Some (user a)) |}.

End AuthProvider.

(** ** The route guards ([ProtectedRoute], [RBACGuard]) *)

Module Guards.

Import AuthProvider.

Inductive Rendered : Type :=
  | loading_placeholder
  | Navigate_login (from : string)
  | Navigate_accessDenied (to : string)
  | children.

#[global] Instance Rendered_eq_dec : EqDecision Rendered.
Proof. solve_decision. Defined.

(** [!role] for [role : Role | null] *)
Definition no_role (role : option string) : bool :=
  match role with
  | Some r => bool_decide (r = EmptyString)
  | None => true
  end.

Definition role_in (allowedRoles : list string) (role : option string) : bool :=
  match role with
  | Some r => includes allowedRoles r
  | None => false
  end.

Definition ProtectedRoute (ctx : AuthContextValue) (location : string)
    (allowedRoles : option (list string)) : Rendered :=
  if ctx_isLoading ctx then loading_placeholder
  else if negb (ctx_isAuthenticated ctx) then Navigate_login location
  else
    match allowedRoles with
    | Some roles =>
        if ((0 <? length roles)%nat
            && (no_role (ctx_role ctx) || negb (role_in roles (ctx_role ctx))))
        then Navigate_accessDenied "/dashboard"
        else children
    | None => children
    end.

Definition RBACGuard (env : Env) (ctx : AuthContextValue) (location : string)
    (allowedRoles : list string) (fallbackPath : option string) : Rendered :=
  let fallbackPath := default "/dashboard" fallbackPath in
  if ctx_isLoading ctx then loading_placeholder
  else if negb (ctx_isAuthenticated ctx) then Navigate_login location
  else if negb (rbacV2Enabled env) then children
  else if no_role (ctx_role ctx) then Navigate_accessDenied fallbackPath
  else if bool_decide (ctx_role ctx = Some SUDO_ROLE) then children
  else if role_in allowedRoles (ctx_role ctx) then children
  else if bool_decide (ctx_role ctx = Some ADMIN)
          && existsb (fun r => bool_decide (r = STAFF) || bool_decide (r = STUDENT)
                               || bool_decide (r = ADMIN)) allowedRoles
    then children
  else Navigate_accessDenied fallbackPath.

End Guards.

(** ** The login page ([src/views/LoginPage.tsx]) *)

Module LoginPage.

Import AuthProvider.

Definition PROFILE_NOT_FOUND_MESSAGE : string :=
  "Account not found. Your authentication succeeded but your user profile is not set up. Please contact an administrator.".

Definition LOGIN_TIMEOUT_MESSAGE : string :=
  "Login is taking too long. Your account may not be properly configured. Please contact an administrator.".

Definition LOGIN_FAILED_MESSAGE : string :=
  "Login failed. Please check your credentials.".

(** The bounded wait of [handleLogin], in milliseconds (10 seconds). *)
Definition LOGIN_TIMEOUT_MS : nat := 10 * 1000.

(** The [useState] cells of the component. *)
Record PageState : Type := {
  email : string;
  password : string;
  error : string;
  isLoading : bool;
  loginAttempted : bool;
}.

(** A timer armed with [setTimeout]: its handle and the time it is due.
    The page arms one kind of timer only, the login timeout. *)
Record Timer : Type := {
  handle : nat;
  due : nat;
}.

(** The mounted component: its state, the [loginTimeoutRef] ref, the
    timers of the event loop, the clock in milliseconds, and the calls made
    to [navigate]. *)
Record Page : Type := {
  st : PageState;
  loginTimeoutRef : option nat;
  pending : list Timer;
  next_handle : nat;
  time : nat;
  navigated : list string;
}.

Definition set_st (s : PageState) (p : Page) : Page :=
  {| st := s; loginTimeoutRef := loginTimeoutRef p; pending := pending p;
     next_handle := next_handle p; time := time p; navigated := navigated p |}.

Definition setError (e : string) (p : Page) : Page :=
  set_st {| email := email (st p); password := password (st p); error := e;
            isLoading := isLoading (st p); loginAttempted := loginAttempted (st p) |} p.

Definition setIsLoading (b : bool) (p : Page) : Page :=
  set_st {| email := email (st p); password := password (st p); error := error (st p);
            isLoading := b; loginAttempted := loginAttempted (st p) |} p.

Definition setLoginAttempted (b : bool) (p : Page) : Page :=
  set_st {| email := email (st p); password := password (st p); error := error (st p);
            isLoading := isLoading (st p); loginAttempted := b |} p.

Definition navigate (to : string) (p : Page) : Page :=
  {| st := st p; loginTimeoutRef := loginTimeoutRef p; pending := pending p;
     next_handle := next_handle p; time := time p; navigated := navigated p ++ [to] |}.

Definition clearTimeout (h : nat) (p : Page) : Page :=
  {| st := st p; loginTimeoutRef := loginTimeoutRef p;
     pending := filter (fun t => handle t <> h) (pending p);
     next_handle := next_handle p; time := time p; navigated := navigated p |}.

Definition set_ref (r : option nat) (p : Page) : Page :=
  {| st := st p; loginTimeoutRef := r; pending := pending p;
     next_handle := next_handle p; time := time p; navigated := navigated p |}.

(** [loginTimeoutRef.current = setTimeout(..., delay)] *)
Definition arm_login_timeout (delay : nat) (p : Page) : Page :=
  {| st := st p; loginTimeoutRef := Some (next_handle p);
     pending := pending p ++ [{| handle := next_handle p; due := time p + delay |}];
     next_handle := S (next_handle p); time := time p; navigated := navigated p |}.

(** [if (loginTimeoutRef.current) { clearTimeout(...); loginTimeoutRef.current = null; }] *)
Definition clear_login_timeout (p : Page) : Page :=
  match loginTimeoutRef p with
  | Some h => set_ref None (clearTimeout h p)
  | None => p
  end.

(** The effects read the state of the render they belong to ([s]) and the
    context value of that render. *)
Definition success_effect (s : PageState) (ctx : AuthContextValue) (from : string) (p : Page) : Page :=
  if loginAttempted s && ctx_isAuthenticated ctx && negb (Guards.no_role (ctx_role ctx)) then
    let p := setIsLoading false (clear_login_timeout p) in
    if bool_decide (ctx_role ctx = Some ADMIN) then navigate "/admin" p else navigate from p
  else p.

Definition profile_not_found_effect (s : PageState) (ctx : AuthContextValue) (p : Page) : Page :=
  if loginAttempted s && negb (ctx_isLoading ctx) && bool_decide (is_Some (ctx_session ctx))
     && negb (ctx_isAuthenticated ctx) then
    setLoginAttempted false
      (setIsLoading false (setError PROFILE_NOT_FOUND_MESSAGE (clear_login_timeout p)))
  else p.

Definition already_authenticated_effect (ctx : AuthContextValue) (p : Page) : Page :=
  if ctx_isAuthenticated ctx && negb (Guards.no_role (ctx_role ctx)) then
    if bool_decide (ctx_role ctx = Some ADMIN) then navigate "/admin" p
    else navigate "/dashboard" p
  else p.

(** A render with context [ctx], followed by its effects in source order. *)
Definition effects (ctx : AuthContextValue) (from : string) (p : Page) : Page :=
  let s := st p in
  already_authenticated_effect ctx
    (profile_not_found_effect s ctx (success_effect s ctx from p)).

(** [handleLogin] up to [await signIn(email, password)]. *)
Definition handleLogin_submit (p : Page) : Page :=
  setIsLoading true (setError EmptyString p).

(** [handleLogin] after [signIn] has resolved to [{ error: authError }]. *)
Definition handleLogin_resume (authError : option JsError) (p : Page) : Page :=
  match authError with
  | Some e =>
      setIsLoading false
        (setError (if bool_decide (message e = EmptyString)
                   then LOGIN_FAILED_MESSAGE else message e) p)
  | None => arm_login_timeout LOGIN_TIMEOUT_MS (setLoginAttempted true p)
  end.

(** The whole handler against the world; when [signIn] rejects, so does the
    handler, and nothing after the [await] runs. *)
Definition handleLogin (p : Page) (w : World) : Page * World :=
  let p1 := handleLogin_submit p in
  match signIn (email (st p)) (password (st p)) w with
  | (Return authError, w') => (handleLogin_resume authError p1, w')
  | (Throw _, w') => (p1, w')
  end.

(** The callback passed to [setTimeout]. *)
Definition login_timeout_callback (p : Page) : Page :=
  setLoginAttempted false (setIsLoading false (setError LOGIN_TIMEOUT_MESSAGE p)).

(** The clock moves forward by [d] milliseconds and every timer that has
    come due runs its callback. *)
Definition advance (d : nat) (p : Page) : Page :=
  let now := time p + d in
  let fired := filter (fun t => due t <= now) (pending p) in
  let p' := {| st := st p; loginTimeoutRef := loginTimeoutRef p;
               pending := filter (fun t => now < due t) (pending p);
               next_handle := next_handle p; time := now; navigated := navigated p |} in
  fold_left (fun q _ => login_timeout_callback q) fired p'.

(** What can happen to a mounted page between submissions. *)
Inductive Event : Type :=
  | context_changed (ctx : AuthContextValue) (from : string)
  | time_passed (d : nat).

Definition step (p : Page) (ev : Event) : Page :=
  match ev with
  | context_changed ctx from => effects ctx from p
  | time_passed d => advance d p
  end.

Definition run (p : Page) (evs : list Event) : Page := fold_left step evs p.

(** The time that passes during a list of events. *)
Definition elapsed (evs : list Event) : nat :=
  fold_right (fun ev n => match ev with time_passed d => d + n | _ => n end) 0 evs.

Definition initial_page (now : nat) : Page :=
  {| st := {| email := EmptyString; password := EmptyString; error := EmptyString;
              isLoading := false; loginAttempted := false |};
     loginTimeoutRef := None; pending := []; next_handle := 0; time := now;
     navigated := [] |}.

End LoginPage.

(** ** The statements of the specification, in its own words *)

Module Spec.

Import AuthProvider Guards.

(** "A runtime-only super-admin feature is enabled AND identityEmail
    case-insensitively equals a configured override address", the
    comparison being "case- and whitespace-insensitive on both sides". *)
Definition sudo_override_matches (env : Env) (userEmail : maybe_string) : Prop :=
  SUDO_ADMIN (FEATURE_FLAGS env) = true
  /\ exists sudoEmail identityEmail,
       env !! "VITE_SUDO_ADMIN_EMAIL" = Some sudoEmail
       /\ sudoEmail <> EmptyString
       /\ userEmail = js_string identityEmail
       /\ identityEmail <> EmptyString
       /\ trim (toLowerCase identityEmail) = trim (toLowerCase sudoEmail).

(** The effective role is SUDO if and only if the override matches; it is
    the profile's role, or null, otherwise. *)
Definition effective_role_rule (env : Env) (dbRole userEmail : maybe_string) : Prop :=
  (SudoGuard.getEffectiveRole env dbRole userEmail = Some SUDO_ROLE
   <-> sudo_override_matches env userEmail)
  /\ (~ sudo_override_matches env userEmail ->
      SudoGuard.getEffectiveRole env dbRole userEmail = nullish_to_null dbRole).

(** The two guards of the application. *)
Inductive Guard : Type :=
  | protected_route (allowedRoles : option (list string))
  | rbac_guard (env : Env) (allowedRoles : list string) (fallbackPath : option string).

Definition decision (g : Guard) (ctx : AuthContextValue) (location : string) : Rendered :=
  match g with
  | protected_route allowedRoles => ProtectedRoute ctx location allowedRoles
  | rbac_guard env allowedRoles fallbackPath =>
      RBACGuard env ctx location allowedRoles fallbackPath
  end.

Definition required_roles (g : Guard) : list string :=
  match g with
  | protected_route allowedRoles => default [] allowedRoles
  | rbac_guard _ allowedRoles _ => allowedRoles
  end.

Definition fallback (g : Guard) : string :=
  match g with
  | protected_route _ => "/dashboard"
  | rbac_guard _ _ fallbackPath => default "/dashboard" fallbackPath
  end.

(** An Authenticated session: identity and profile resolved, not loading. *)
Definition Authenticated (ctx : AuthContextValue) : Prop :=
  ctx_isLoading ctx = false /\ ctx_isAuthenticated ctx = true.

Definition admin_may_act (required : list string) : Prop :=
  exists r, In r required /\ (r = STAFF \/ r = STUDENT \/ r = ADMIN).

(** "If effective role is ADMIN and the route's required roles include any
    of STAFF, STUDENT, ADMIN, admit"; "otherwise, if effective role is not
    in the route's required set, redirect to a fixed fallback path carrying
    an access-denied signal". *)
Definition route_guard_rule (g : Guard) (ctx : AuthContextValue) (location : string) : Prop :=
  Authenticated ctx ->
  (ctx_role ctx = Some ADMIN -> admin_may_act (required_roles g) ->
     decision g ctx location = children)
  /\ (ctx_role ctx <> Some ADMIN -> ctx_role ctx <> Some SUDO_ROLE ->
      role_in (required_roles g) (ctx_role ctx) = false ->
      decision g ctx location = Navigate_accessDenied (fallback g)).

(** A STAFF or STUDENT caller: the row of [public.users] found under its
    uid carries role [r]. *)
Definition caller_has_role (db : Schema.Database) (me r : string) : Prop :=
  exists u, Schema.users db !! me = Some u /\ Schema.role u = r.

(** "authorize(r, tutorials, read) returns true only for tutorials whose
    target equals r, and authorize(r, users, * ) is always false". *)
Definition staff_student_rule (db : Schema.Database) (me r : string) : Prop :=
  caller_has_role db me r -> r = STAFF \/ r = STUDENT ->
  (forall t, Schema.authorize db (Some me) Schema.SELECT (Schema.tutorials_row t) = true ->
             Schema.target_role t = r)
  /\ (forall c u, Schema.authorize db (Some me) c (Schema.users_row u) = false).

End Spec.

(** ** Invariants of the login page between a submission and its outcome *)

Module LoginPageInvariants.

Import LoginPage.

(** While the page waits for the outcome of a submission whose timer is due
    at [D]: every pending timer is that one and the ref holds its handle, the
    timeout message is not shown, and a page that no longer waits
    ([loginAttempted] false) has no timer left. *)
Definition waiting (D : nat) (p : Page) : Prop :=
  (forall t, t ∈ pending p -> due t = D /\ loginTimeoutRef p = Some (handle t))
  /\ error (st p) <> LOGIN_TIMEOUT_MESSAGE
  /\ (loginAttempted (st p) = false -> pending p = []).

(** Once the timer is gone: nothing is pending and the timeout message is
    not shown. *)
Definition settled (p : Page) : Prop :=
  pending p = [] /\ error (st p) <> LOGIN_TIMEOUT_MESSAGE.

End LoginPageInvariants.

(** ** Sample data used by the examples *)

Module Samples.

Import AuthProvider.

Definition profile (uid number role : string) : Schema.User :=
  {| Schema.id := uid; Schema.id_number := number; Schema.role := role;
     Schema.name := "User " ++ number; Schema.email := Some (uid ++ "@chresouniversity.edu.zm");
     Schema.is_active := true; Schema.email_verified := None;
     Schema.auth_provider := None |}.

Definition admin_profile : Schema.User := profile "admin-1" "ADM001" ADMIN.
Definition staff_profile : Schema.User := profile "staff-1" "STF001" STAFF.
Definition student_profile : Schema.User := profile "student-1" "STD001" STUDENT.

Definition session_of (uid : string) : Session :=
  {| session_user_id := uid;
     session_user_email := Some (uid ++ "@chresouniversity.edu.zm") |}.

(** The context value of a session whose profile has been resolved. *)
Definition authenticated_as (u : Schema.User) : AuthContextValue :=
  useAuth {| session := Some (session_of (Schema.id u)); user := Some u; isLoading := false |}.

(** The context value of a verified identity without a profile. *)
Definition verified_no_profile (uid : string) : AuthContextValue :=
  useAuth {| session := Some (session_of uid); user := None; isLoading := false |}.

Definition rbac_v2_on : Env := <["VITE_ENABLE_ROLE_BASED_ACCESS_V2" := "true"]> ∅.

Definition staff_tutorial : Schema.Tutorial :=
  {| Schema.title := "Staff Portal: Grade Submission";
     Schema.video_url := "https://www.w3schools.com/html/mov_bbb.mp4";
     Schema.target_role := STAFF; Schema.created_by := None |}.

Definition student_tutorial : Schema.Tutorial :=
  {| Schema.title := "Student Portal: Module Access";
     Schema.video_url := "https://www.w3schools.com/html/mov_bbb.mp4";
     Schema.target_role := STUDENT; Schema.created_by := None |}.

(** A database with one administrator, one member of staff and one student;
    the identity [ghost-1] exists in [auth.users] but has no profile, and
    [new-1] is the identity a sign-up creates. *)
Definition sample_db (v : Schema.SchemaVersion) : Schema.Database :=
  {| Schema.version := v;
     Schema.auth_users := {["admin-1"; "staff-1"; "student-1"; "ghost-1"; "new-1"]};
     Schema.users := <["admin-1" := admin_profile]> (<["staff-1" := staff_profile]>
                       (<["student-1" := student_profile]> ∅));
     Schema.tutorials := [staff_tutorial; student_tutorial];
     Schema.audit_logs := [] |}.

(** An auth service that accepts the password [correct horse] for the
    identities it knows and answers a sign-up with a user but no session
    (e-mail confirmation pending). *)
Definition sample_auth_service : AuthService :=
  {| signInWithPassword_response := fun email password =>
       if bool_decide (password = "correct horse") then
         if bool_decide (email = "ghost-1@chresouniversity.edu.zm") then inr (session_of "ghost-1")
         else if bool_decide (email = "staff-1@chresouniversity.edu.zm") then inr (session_of "staff-1")
         else inl {| message := "Invalid login credentials" |}
       else inl {| message := "Invalid login credentials" |};
     signUp_response := fun email password =>
       inr {| signUp_user := Some "new-1"; signUp_session := None |} |}.

Definition sample_world (v : Schema.SchemaVersion) (uid : option string) (t : Transport) : World :=
  {| db := sample_db v; uid := uid; auth_service := sample_auth_service; transport := t;
     clock := "2026-01-01T00:00:00.000Z"; console := []; rpc_calls := [];
     users_inserts := [];
     auth := {| session := None; user := None; isLoading := false |} |}.

(** The login form filled in, on a freshly mounted page. *)
Definition login_form (email password : string) : LoginPage.Page :=
  LoginPage.set_st
    {| LoginPage.email := email; LoginPage.password := password;
       LoginPage.error := EmptyString; LoginPage.isLoading := false;
       LoginPage.loginAttempted := false |}
    (LoginPage.initial_page 0).

End Samples.

(** ** Text helpers of the remaining code *)

Module Text.

(** [String.prototype.endsWith]: [s] ends with [suffix] when it is [suffix]
    or its tail ends with [suffix]. *)
Fixpoint endsWith (s suffix : string) : bool :=
  bool_decide (s = suffix)
  || match s with
     | EmptyString => false
     | String _ s' => endsWith s' suffix
     end.

(** [String.prototype.includes]: [t] occurs in [s] when it is a prefix of
    [s] or occurs in its tail. *)
Fixpoint str_includes (s t : string) : bool :=
  String.prefix t s
  || match s with
     | EmptyString => false
     | String _ s' => str_includes s' t
     end.

(** Some character of [s] is an upper-case letter [A]..[Z]. *)
Fixpoint has_upper (s : string) : bool :=
  match s with
  | EmptyString => false
  | String c s' =>
      (let n := nat_of_ascii c in (65 <=? n) && (n <=? 90))%nat || has_upper s'
  end.

(** The number of occurrences of [c] in [s]. *)
Fixpoint count_char (c : ascii) (s : string) : nat :=
  match s with
  | EmptyString => 0
  | String c' s' => (if bool_decide (c' = c) then 1 else 0) + count_char c s'
  end.

(** [Array.prototype.join] *)
Fixpoint join (sep : string) (l : list string) : string :=
  match l with
  | [] => EmptyString
  | [x] => x
  | x :: rest => x ++ sep ++ join sep rest
  end.

End Text.

(** ** The legacy flag interface ([src/lib/featureFlags.ts]) *)

Module LegacyFlags.

(** [keyof FeatureFlags] *)
Inductive FlagKey : Type :=
  | ENABLE_MAGIC_LINK_AUTH
  | ENABLE_ROLE_BASED_ACCESS_V2
  | ENABLE_SUDO_ADMIN
  | ENABLE_STAFF_DOMAIN_ENFORCEMENT.

Record FeatureFlags : Type := {
  legacy_MAGIC_LINK_AUTH : bool;
  legacy_ROLE_BASED_ACCESS_V2 : bool;
  legacy_SUDO_ADMIN : bool;
  legacy_STAFF_DOMAIN_ENFORCEMENT : bool;
}.

Definition getFeatureFlags (env : Env) : FeatureFlags := {|
  legacy_MAGIC_LINK_AUTH := MAGIC_LINK (FEATURE_FLAGS env);
  legacy_ROLE_BASED_ACCESS_V2 := RBAC_V2 (FEATURE_FLAGS env);
  legacy_SUDO_ADMIN := SUDO_ADMIN (FEATURE_FLAGS env);
  legacy_STAFF_DOMAIN_ENFORCEMENT := STAFF_DOMAIN_ENFORCEMENT (FEATURE_FLAGS env);
|}.

Definition isFeatureEnabled (env : Env) (flag : FlagKey) : bool :=
  match flag with
  | ENABLE_MAGIC_LINK_AUTH => legacy_MAGIC_LINK_AUTH (getFeatureFlags env)
  | ENABLE_ROLE_BASED_ACCESS_V2 => legacy_ROLE_BASED_ACCESS_V2 (getFeatureFlags env)
  | ENABLE_SUDO_ADMIN => legacy_SUDO_ADMIN (getFeatureFlags env)
  | ENABLE_STAFF_DOMAIN_ENFORCEMENT => legacy_STAFF_DOMAIN_ENFORCEMENT (getFeatureFlags env)
  end.

(** [Object.entries(FEATURE_FLAGS)], in the order the registry declares its
    keys. *)
Definition entries (env : Env) : list (string * bool) := [
  ("MAGIC_LINK", MAGIC_LINK (FEATURE_FLAGS env));
  ("STAFF_DOMAIN_ENFORCEMENT", STAFF_DOMAIN_ENFORCEMENT (FEATURE_FLAGS env));
  ("RBAC_V2", RBAC_V2 (FEATURE_FLAGS env));
  ("SUDO_ADMIN", SUDO_ADMIN (FEATURE_FLAGS env))
].

Definition getEnabledFeatures (env : Env) : list string :=
  List.map fst (List.filter snd (entries env)).

End LegacyFlags.

(** ** The SUDO configuration ([src/lib/sudoConfig.ts]) *)

Module SudoConfig.

Import LegacyFlags.

(** [SUDO_CONFIG.email] *)
Definition SUDO_CONFIG_email (env : Env) : maybe_string :=
  of_lookup (env !! "VITE_SUDO_ADMIN_EMAIL").

Definition isSudoAdmin (env : Env) (email : maybe_string) : App bool :=
  if negb (truthy email) || negb (isFeatureEnabled env ENABLE_SUDO_ADMIN) then mret false
  else if negb (truthy (SUDO_CONFIG_email env)) then
    console_log (console_warn "SUDO admin email not configured in environment");;
    mret false
  else
    match email, SUDO_CONFIG_email env with
    | js_string e, js_string c =>
        mret (bool_decide (trim (toLowerCase e) = trim (toLowerCase c)))
    | _, _ => mret false
    end.

Definition isSudoConfigured (env : Env) : bool :=
  truthy (SUDO_CONFIG_email env) && isFeatureEnabled env ENABLE_SUDO_ADMIN.

End SudoConfig.

(** ** Staff e-mail domain ([src/lib/authConfig.ts]) *)

Module AuthConfig.

Import LegacyFlags Text.

(** [AUTH_CONFIG.staffEmailDomain] *)
Definition staffEmailDomain (env : Env) : maybe_string :=
  of_lookup (env !! "VITE_STAFF_EMAIL_DOMAIN").

Definition isStaffEmail (env : Env) (email : string) : App bool :=
  match staffEmailDomain env with
  | js_string d =>
      if negb (truthy (js_string d)) then
        console_log (console_warn "VITE_STAFF_EMAIL_DOMAIN not configured");; mret true
      else
        let domain := toLowerCase d in
        mret (endsWith (trim (toLowerCase email)) ("@" ++ domain))
  | _ => console_log (console_warn "VITE_STAFF_EMAIL_DOMAIN not configured");; mret true
  end.

Definition shouldEnforceStaffDomain (env : Env) : bool :=
  isFeatureEnabled env ENABLE_STAFF_DOMAIN_ENFORCEMENT && truthy (staffEmailDomain env).

(** The configured domain as the template literal prints it. *)
Definition domain_text (env : Env) : string :=
  match staffEmailDomain env with
  | js_string d => d
  | js_null => "null"
  | js_undefined => "undefined"
  end.

Definition validateStaffEmail (env : Env) (email : string) : App (option string) :=
  if negb (shouldEnforceStaffDomain env) then mret None
  else
    ok ← isStaffEmail env email;
    if negb ok
    then mret (Some ("Staff login requires a @" ++ domain_text env ++ " email address"))
    else mret None.

End AuthConfig.

(** ** Magic links ([src/features/auth/api/magicLink.api.ts], [src/lib/authV2.ts]) *)

Module MagicLink.

Import LegacyFlags Text AuthConfig.

Record MagicLinkResult : Type := {
  success : bool;
  error : option string;
}.

(** How [supabase.auth.signInWithOtp] ends for the address it is given: it
    resolves without error, resolves with an error, or rejects with an
    [Error]. The options each sender passes are fixed by the sender. *)
Inductive OtpOutcome : Type :=
  | otp_sent
  | otp_error (message : string)
  | otp_rejects (e : JsError).

Definition getConfiguredStaffDomain (env : Env) : string :=
  match staffEmailDomain env with
  | js_string d => if truthy (js_string d) then "@" ++ d else "@staff.university.edu"
  | _ => "@staff.university.edu"
  end.

Definition isValidStaffDomain (env : Env) (email : string) : bool :=
  endsWith (trim (toLowerCase email)) (getConfiguredStaffDomain env).

Definition getStaffDomain (env : Env) : string := getConfiguredStaffDomain env.

Definition sendStaffMagicLink (signInWithOtp : string -> OtpOutcome) (env : Env)
    (email : string) : App MagicLinkResult :=
  if negb (isFeatureEnabled env ENABLE_MAGIC_LINK_AUTH) then
    mret {| success := false;
            error := Some "Magic link authentication is not currently available" |}
  else
    let normalizedEmail := trim (toLowerCase email) in
    let staffDomain := getConfiguredStaffDomain env in
    if shouldEnforceStaffDomain env && negb (endsWith normalizedEmail staffDomain) then
      Audit.logAction "STAFF_DOMAIN_FAIL" (Some ("Invalid domain attempted: " ++ email));;
      mret {| success := false;
              error := Some ("Staff must use their " ++ staffDomain
                             ++ " university email address") |}
    else
      try_catch
        (match signInWithOtp normalizedEmail with
         | otp_rejects e => throw e
         | otp_error m =>
             Audit.logAction "MAGIC_LINK_FAIL" (Some ("Staff: " ++ email ++ " - " ++ m));;
             mret {| success := false; error := Some m |}
         | otp_sent =>
             Audit.logAction "MAGIC_LINK_SENT" (Some ("Staff: " ++ email));;
             mret {| success := true; error := None |}
         end)
        (fun err =>
           Audit.logAction "MAGIC_LINK_ERROR"
             (Some ("Staff: " ++ email ++ " - " ++ message err));;
           mret {| success := false; error := Some (message err) |}).

(** [sendMagicLink] of [authV2.ts]; [isStaff] is [options?.isStaff]. *)
Definition sendMagicLink (signInWithOtp : string -> OtpOutcome) (env : Env)
    (email : string) (isStaff : bool) : App MagicLinkResult :=
  if negb (isFeatureEnabled env ENABLE_MAGIC_LINK_AUTH) then
    mret {| success := false;
            error := Some "Magic link authentication is not enabled. Please use email/password login." |}
  else
    domainError ← (if isStaff then validateStaffEmail env email else mret None);
    match domainError with
    | Some e => mret {| success := false; error := Some e |}
    | None =>
        try_catch
          (match signInWithOtp (toLowerCase (trim email)) with
           | otp_rejects e => throw e
           | otp_error m =>
               mret {| success := false;
                       error := Some (if bool_decide (m = EmptyString)
                                      then "Failed to send magic link email" else m) |}
           | otp_sent => mret {| success := true; error := None |}
           end)
          (fun _ =>
             console_log (console_error "Magic link error:");;
             mret {| success := false;
                     error := Some "An unexpected error occurred. Please try again." |})
    end.

End MagicLink.

(** ** CSV export ([src/lib/csvExport.ts], [exportUsersToCSV]) *)

Module CsvExport.

Import Text.

(** The values found in the exported records. *)
Inductive Value : Type :=
  | v_null
  | v_undefined
  | v_string (s : string)
  | v_bool (b : bool).

(** [String(value)] *)
Definition String_of (v : Value) : string :=
  match v with
  | v_null => "null"
  | v_undefined => "undefined"
  | v_string s => s
  | v_bool true => "true"
  | v_bool false => "false"
  end.

Definition comma : ascii := ascii_of_nat 44.
Definition dquote : ascii := ascii_of_nat 34.
Definition newline : ascii := ascii_of_nat 10.

(** The global replace of every double quote by two of them. *)
Fixpoint double_quotes (s : string) : string :=
  match s with
  | EmptyString => EmptyString
  | String c s' =>
      if bool_decide (c = dquote) then String dquote (String dquote (double_quotes s'))
      else String c (double_quotes s')
  end.

Definition needs_quoting (stringValue : string) : bool :=
  str_includes stringValue (String comma EmptyString)
  || str_includes stringValue (String dquote EmptyString)
  || str_includes stringValue (String newline EmptyString).

Definition escapeCSVValue (value : Value) : string :=
  match value with
  | v_null | v_undefined => EmptyString
  | _ =>
      let stringValue := String_of value in
      if needs_quoting stringValue
      then String dquote (double_quotes stringValue ++ String dquote EmptyString)
      else stringValue
  end.

(** The text a value is exported as, before any quoting. *)
Definition field_text (value : Value) : string :=
  match value with
  | v_null | v_undefined => EmptyString
  | _ => String_of value
  end.

(** What may follow a field in a row: nothing, or a comma and the rest. *)
Definition row_rest (r : string) : Prop :=
  r = EmptyString \/ exists r', r = String comma r'.

(** One data row: the escaped values of [item] under [headers], joined by
    commas. An item is read as [Record<string, unknown>]. *)
Definition dataRow (headers : list string) (item : string -> Value) : string :=
  join (String comma EmptyString) (List.map (fun header => escapeCSVValue (item header)) headers).

Definition csvContent (headers : list string) (data : list (string -> Value)) : string :=
  let headerRow := join (String comma EmptyString) headers in
  let dataRows := join (String newline EmptyString) (List.map (dataRow headers) data) in
  "data:text/csv;charset=utf-8," ++ headerRow ++ String newline EmptyString ++ dataRows.

(** Characters [encodeURI] leaves alone: letters, digits, and the reserved
    and mark characters listed by code below (semicolon, comma, slash,
    question mark, colon, at, ampersand, equals, plus, dollar, hyphen,
    underscore, dot, exclamation mark, tilde, asterisk, apostrophe, the two
    parentheses and the number sign). *)
Definition uri_unescaped (c : ascii) : bool :=
  let n := nat_of_ascii c in
  (((48 <=? n) && (n <=? 57)) || ((65 <=? n) && (n <=? 90)) || ((97 <=? n) && (n <=? 122))
   || existsb (Nat.eqb n) [59; 44; 47; 63; 58; 64; 38; 61; 43; 36; 45; 95; 46; 33; 126;
                           42; 39; 40; 41; 35])%nat.

Definition upper_hex (n : nat) : ascii :=
  ascii_of_nat (if (n <? 10)%nat then 48 + n else 55 + n).

Fixpoint encodeURI (s : string) : string :=
  match s with
  | EmptyString => EmptyString
  | String c s' =>
      if uri_unescaped c then String c (encodeURI s')
      else
        let n := nat_of_ascii c in
        String (ascii_of_nat 37) (String (upper_hex (n / 16))
          (String (upper_hex (n mod 16)) (encodeURI s')))
  end.

(** The link that [downloadAsCSV] builds and clicks. *)
Record Download : Type := {
  href : string;
  download : string;
}.

(** [None] when the function returns before building anything. *)
Definition downloadAsCSV (data : list (string -> Value)) (headers : list string)
    (filename : string) : option Download :=
  match data with
  | [] => None
  | _ => Some {| href := encodeURI (csvContent headers data);
                 download := filename ++ ".csv" |}
  end.

(** A [User] read by column name; the export reads the five columns below. *)
Definition user_record (u : Schema.User) (header : string) : Value :=
  if bool_decide (header = "id_number") then v_string (Schema.id_number u)
  else if bool_decide (header = "name") then v_string (Schema.name u)
  else if bool_decide (header = "role") then v_string (Schema.role u)
  else if bool_decide (header = "email") then
    match Schema.email u with Some e => v_string e | None => v_null end
  else if bool_decide (header = "is_active") then v_bool (Schema.is_active u)
  else if bool_decide (header = "id") then v_string (Schema.id u)
  else v_undefined.

Definition exportUsersToCSV (users : list Schema.User) : option Download :=
  downloadAsCSV (List.map user_record users)
    ["id_number"; "name"; "role"; "email"; "is_active"] "university_ids".

End CsvExport.

(** ** The dashboard's search filter ([useDashboard]) *)

Module Dashboard.

Import Text.

Section Filter.

(** The filter reads two columns of a tutorial. *)
Context {T : Type} (title : T -> string) (description : T -> option string).

Definition matches (term : string) (t : T) : bool :=
  str_includes (toLowerCase (title t)) term
  || str_includes (default EmptyString (toLowerCase <$> description t)) term.

Definition filteredTutorials (tutorials : list T) (searchTerm : string) : list T :=
  if bool_decide (trim searchTerm = EmptyString) then tutorials
  else
    let term := toLowerCase searchTerm in
    List.filter (matches term) tutorials.

End Filter.

End Dashboard.

(** ** Sign-out and the role hook ([src/hooks/useAuth.tsx]) *)

Module AuthHooks.

Import AuthProvider.

(** [supabase.auth.signOut()]: the client drops its session. *)
Definition auth_signOut : App unit := modify (set_uid None).

(** A [string | null] inside a template literal. *)
Definition print_nullable (o : option string) : string := default "null" o.

Definition signOut : App unit :=
  w ← get_world;
  match user (auth w) with
  | Some u =>
      Audit.logAction "LOGOUT" (Some ("User logged out: " ++ print_nullable (Schema.email u)))
  | None => mret tt
  end;;
  auth_signOut;;
  setUser None;;
  setSession None.

Record RequireRole : Type := {
  isAllowed : bool;
  rr_isLoading : bool;
  rr_role : option string;
}.

Definition useRequireRole (ctx : AuthContextValue) (allowedRoles : list string) : RequireRole :=
  {| isAllowed := Guards.role_in allowedRoles (ctx_role ctx);
     rr_isLoading := ctx_isLoading ctx;
     rr_role := ctx_role ctx |}.

End AuthHooks.

(** ** Deleting a user ([src/features/users/api/users.api.ts]) *)

Module UsersApi.

(** Some row of [tutorials], or of [audit_logs], points at the user. *)
Definition authored (db : Schema.Database) (userId : string) : bool :=
  existsb (fun t => bool_decide (Schema.created_by t = Some userId)) (Schema.tutorials db).

Definition audited (db : Schema.Database) (userId : string) : bool :=
  existsb (fun a => bool_decide (Schema.user_id a = Some userId)) (Schema.audit_logs db).

Definition referenced (db : Schema.Database) (userId : string) : bool :=
  audited db userId || authored db userId.

(** [DELETE FROM public.users WHERE id = userId] issued by the client as
    [uid]. The [WHERE] clause reads the table, so the statement needs the
    delete and the select policies, and policy expansion comes first. When
    it succeeds the row is affected when both sets of policies accept it;
    neither foreign key on [public.users(id)] has an [ON DELETE] clause, so a
    row that is still referenced cannot go; a statement that affects no row
    is not an error. *)
Definition delete_user (db : Schema.Database) (uid : option string) (userId : string)
  : Schema.PgError + Schema.Database :=
  match Schema.expansion_error (Schema.version db) Schema.users_table Schema.DELETE true with
  | Some e => inl e
  | None =>
      match Schema.users db !! userId with
      | Some u =>
          if Schema.permitted db uid Schema.DELETE (Schema.users_row u)
             && Schema.permitted db uid Schema.SELECT (Schema.users_row u)
          then
            if authored db userId
            then inl (Schema.foreign_key_violation "tutorials_created_by_fkey")
            else if audited db userId
            then inl (Schema.foreign_key_violation "audit_logs_user_id_fkey")
            else inr (Schema.with_users db (delete userId (Schema.users db)))
          else inr db
      | None => inr db
      end
  end.

(** [supabase.from('users').delete().eq('id', userId)] *)
Definition users_delete (userId : string) : App (option Schema.PgError) :=
  fun w =>
    match transport w with
    | rejects e => (Throw e, w)
    | resolves_with_error e => (Return (Some e), w)
    | online =>
        match delete_user (db w) (uid w) userId with
        | inr db' => (Return None, set_db db' w)
        | inl e => (Return (Some e), w)
        end
    end.

(** The [error] field of the [ApiResponse] that [deleteUser] returns. *)
Definition deleteUser (userId idNumber : string) : App (option Schema.PgError) :=
  error ← users_delete userId;
  match error with
  | Some e => console_log (console_error "Error deleting user:");; mret (Some e)
  | None =>
      Audit.logAction "DELETE_USER_ID" (Some ("Removed ID: " ++ idNumber));;
      mret None
  end.

End UsersApi.

(** ** Leaving the login page *)

Module LoginPageUnmount.

Import LoginPage.

(** The cleanup of the last effect: [clearTimeout] on whatever the ref
    holds; the ref itself is left as it is. *)
Definition unmount_cleanup (p : Page) : Page :=
  match loginTimeoutRef p with
  | Some h => clearTimeout h p
  | None => p
  end.

End LoginPageUnmount.

(** ** The bounded wait of the login page *)

Module LoginPageBound.

Import LoginPage.

(** While a submission's timer, due at [D], may be pending: every pending
    timer is that one and the ref holds its handle; a page that shows the
    spinner has a timer pending; and a pending timer is not yet due. *)
Definition bounded (D : nat) (p : Page) : Prop :=
  (forall t, t ∈ pending p -> due t = D /\ loginTimeoutRef p = Some (handle t))
  /\ (isLoading (st p) = true -> pending p <> [])
  /\ (pending p <> [] -> time p < D).

End LoginPageBound.

(** ** Further sample data *)

Module MoreSamples.

(** Magic links and staff-domain enforcement on, the domain written in
    mixed case. *)
Definition mixed_case_domain_env : Env :=
  <["VITE_ENABLE_MAGIC_LINK_AUTH" := "true"]>
    (<["VITE_ENABLE_STAFF_DOMAIN_ENFORCEMENT" := "true"]>
       (<["VITE_STAFF_EMAIL_DOMAIN" := "ChresoUniversity.edu.zm"]> ∅)).

End MoreSamples.

(** ** Sample worlds with a signed-in user *)

Module SignedIn.

Import Samples.

(** The sample world with [u] signed in and its profile loaded. *)
Definition signed_in (v : Schema.SchemaVersion) (u : Schema.User) (t : Transport) : World :=
  set_auth {| session := Some (session_of (Schema.id u)); user := Some u; isLoading := false |}
    (sample_world v (Some (Schema.id u)) t).

End SignedIn.

(** * Properties *)

(** ** Roles and the SUDO guard *)

Section RoleFacts.

Lemma includes_true (l : list string) (x : string) :
  includes l x = true <-> In x l.
Proof.
  unfold includes. rewrite existsb_exists. split.
  - intros [y [Hy Heq]]. apply bool_decide_eq_true in Heq. now subst.
  - intros H. exists x. split; [assumption | now apply bool_decide_eq_true].
Qed.

Lemma includes_false (l : list string) (x : string) :
  includes l x = false <-> ~ In x l.
Proof.
  rewrite <- includes_true. destruct (includes l x); split; intros; congruence.
Qed.

Lemma persistable_cases (r : string) :
  In r PERSISTABLE_ROLES <-> r = STAFF \/ r = STUDENT \/ r = ADMIN.
Proof. unfold PERSISTABLE_ROLES. simpl. intuition. Qed.

Lemma sudo_not_persistable : ~ In SUDO_ROLE PERSISTABLE_ROLES.
Proof. rewrite persistable_cases. intros [H | [H | H]]; discriminate H. Qed.

End RoleFacts.

Module SudoGuardFacts.

Import SudoGuard.

Lemma sanitize_persistable (w : World) (r : string) :
  In r PERSISTABLE_ROLES ->
  sanitizeRoleForPersistence (js_string r) w = (Return (Some r), w).
Proof.
  rewrite persistable_cases. intros [-> | [-> | ->]]; reflexivity.
Qed.

Lemma sanitize_sudo (w : World) :
  fst (sanitizeRoleForPersistence (js_string SUDO_ROLE) w) = Return None.
Proof. reflexivity. Qed.

Lemma sanitize_other (w : World) (v : maybe_string) :
  v <> js_string SUDO_ROLE ->
  (forall r, In r PERSISTABLE_ROLES -> v <> js_string r) ->
  sanitizeRoleForPersistence v w = (Return None, w).
Proof.
  intros Hsudo Hother. unfold sanitizeRoleForPersistence.
  destruct (truthy v) eqn:Ht; simpl; [| reflexivity].
  destruct (decide (v = js_string SUDO_ROLE)) as [E | _]; [contradiction |].
  destruct v as [| | s]; try discriminate Ht.
  unfold isRolePersistable. rewrite Ht.
  destruct (includes PERSISTABLE_ROLES s) eqn:Hin; [| reflexivity].
  apply includes_true in Hin. exfalso. now apply (Hother s).
Qed.

Lemma assert_sudo_throws (w : World) (context : string) :
  fst (assertNotSudoForPersistence (js_string SUDO_ROLE) context w)
  = Throw {| message := "SUDO role cannot be persisted to database" |}.
Proof.
  unfold assertNotSudoForPersistence.
  destruct (decide (js_string SUDO_ROLE = js_string SUDO_ROLE)) as [_ | N]; [| congruence].
  unfold mbind, App_bind, console_log, modify, Date_toISOString, try_catch,
    Audit.rpc_log_action, throw, mret, App_ret. simpl.
  destruct (transport w); simpl; try reflexivity.
  destruct (Schema.log_action _ _ _ _); reflexivity.
Qed.

Lemma assert_other_noop (w : World) (v : maybe_string) (context : string) :
  v <> js_string SUDO_ROLE ->
  assertNotSudoForPersistence v context w = (Return tt, w).
Proof.
  intros H. unfold assertNotSudoForPersistence.
  destruct (decide (v = js_string SUDO_ROLE)); [contradiction | reflexivity].
Qed.

(** C2. [sanitizeRoleForPersistence] answers [null] on SUDO, hands each of
    STAFF, STUDENT and ADMIN back unchanged (leaving the world as it was),
    and answers [null] on every other input; [assertNotSudoForPersistence]
    throws exactly when the role is SUDO and, on each of the three persisted
    roles, returns without any effect. *)
Theorem C2_sanitize_and_assert (w : World) (context : string) :
  fst (sanitizeRoleForPersistence (js_string SUDO_ROLE) w) = Return None
  /\ (forall r, In r PERSISTABLE_ROLES ->
        sanitizeRoleForPersistence (js_string r) w = (Return (Some r), w))
  /\ (forall v, v <> js_string SUDO_ROLE ->
        (forall r, In r PERSISTABLE_ROLES -> v <> js_string r) ->
        fst (sanitizeRoleForPersistence v w) = Return None)
  /\ (forall v, (exists e, fst (assertNotSudoForPersistence v context w) = Throw e)
                <-> v = js_string SUDO_ROLE)
  /\ (forall r, In r PERSISTABLE_ROLES ->
        assertNotSudoForPersistence (js_string r) context w = (Return tt, w)).
Proof.
  split; [apply sanitize_sudo |].
  split; [apply sanitize_persistable |].
  split; [intros v H1 H2; now rewrite sanitize_other |].
  split.
  - intros v. split.
    + intros [e He]. destruct (decide (v = js_string SUDO_ROLE)) as [E | N]; [exact E |].
      rewrite assert_other_noop in He by exact N. discriminate He.
    + intros ->. eexists. apply assert_sudo_throws.
  - intros r Hr. apply assert_other_noop.
    intros E. injection E as ->. now apply sudo_not_persistable.
Qed.

End SudoGuardFacts.

Module EffectiveRoleFacts.

Import SudoGuard Spec.

Lemma truthy_string (s : string) : truthy (js_string s) = true <-> s <> EmptyString.
Proof.
  simpl. destruct (decide (s = EmptyString)) as [E | N].
  - rewrite bool_decide_eq_true_2 by exact E. simpl. split; [discriminate | contradiction].
  - rewrite bool_decide_eq_false_2 by exact N. simpl. split; [intros _; exact N | reflexivity].
Qed.

Lemma isSudoSession_spec (env : Env) (userEmail : maybe_string) :
  isSudoSession env userEmail = true <-> sudo_override_matches env userEmail.
Proof.
  unfold isSudoSession, sudo_override_matches.
  destruct (SUDO_ADMIN (FEATURE_FLAGS env)) eqn:Hflag; simpl.
  2: { split; [discriminate | intros [H _]; discriminate H]. }
  destruct (env !! "VITE_SUDO_ADMIN_EMAIL") as [s |] eqn:Henv; simpl.
  2: { split; [discriminate | intros [_ (s & i & H & _)]; discriminate H]. }
  destruct userEmail as [| | u].
  1, 2: split; [discriminate | intros [_ (s' & i & _ & _ & H & _)]; discriminate H].
  destruct (decide (s = EmptyString)) as [Es | Ns].
  { rewrite (bool_decide_eq_true_2 _ Es). simpl.
    split; [discriminate |].
    intros [_ (s' & i & H & Hs & _)]. injection H as <-. contradiction. }
  rewrite (bool_decide_eq_false_2 _ Ns). simpl.
  destruct (decide (u = EmptyString)) as [Eu | Nu].
  { rewrite (bool_decide_eq_true_2 _ Eu). simpl.
    split; [discriminate |].
    intros [_ (s' & i & _ & _ & H & Hi & _)]. injection H as <-. contradiction. }
  rewrite (bool_decide_eq_false_2 _ Nu). simpl.
  rewrite bool_decide_eq_true. split.
  - intros H. split; [reflexivity |]. exists s, u. auto.
  - intros [_ (s' & i & H1 & _ & H2 & _ & H3)].
    injection H1 as <-. injection H2 as <-. exact H3.
Qed.

Lemma getEffectiveRole_override (env : Env) (dbRole userEmail : maybe_string) :
  sudo_override_matches env userEmail ->
  getEffectiveRole env dbRole userEmail = Some SUDO_ROLE.
Proof.
  intros H. apply isSudoSession_spec in H. unfold getEffectiveRole. now rewrite H.
Qed.

Lemma getEffectiveRole_no_override (env : Env) (dbRole userEmail : maybe_string) :
  ~ sudo_override_matches env userEmail ->
  getEffectiveRole env dbRole userEmail = nullish_to_null dbRole.
Proof.
  intros H. unfold getEffectiveRole.
  destruct (isSudoSession env userEmail) eqn:E; [| reflexivity].
  apply isSudoSession_spec in E. contradiction.
Qed.

(** Scenario C of the specification: mixed case and a trailing space. *)
Example scenario_C :
  getEffectiveRole
    (<["VITE_ENABLE_SUDO_ADMIN" := "true"]> (<["VITE_SUDO_ADMIN_EMAIL" := "root@x.edu"]> ∅))
    (js_string STUDENT) (js_string "Root@X.EDU ")
  = Some SUDO_ROLE.
Proof. vm_compute. reflexivity. Qed.

(** C3, as stated, fails when the stored role is itself SUDO: with no flag
    and no override configured the result is still SUDO. *)
Lemma C3_stored_sudo_counterexample :
  ~ effective_role_rule ∅ (js_string SUDO_ROLE) js_null.
Proof.
  intros [[H _] _].
  assert (E : getEffectiveRole ∅ (js_string SUDO_ROLE) js_null = Some SUDO_ROLE)
    by reflexivity.
  apply H in E. destruct E as [E _]. vm_compute in E. discriminate E.
Qed.

(** C3, amended. [getEffectiveRole] returns SUDO whenever the sudo feature is
    enabled, an override email is configured and the identity email equals
    it after lowercasing and trimming both; whenever that fails it returns
    [dbRole], or null when there is none. Hence the result is SUDO exactly
    when the override matches or the stored role is itself SUDO. *)
Theorem C3_effective_role (env : Env) (dbRole userEmail : maybe_string) :
  (sudo_override_matches env userEmail ->
     getEffectiveRole env dbRole userEmail = Some SUDO_ROLE)
  /\ (~ sudo_override_matches env userEmail ->
     getEffectiveRole env dbRole userEmail = nullish_to_null dbRole)
  /\ (getEffectiveRole env dbRole userEmail = Some SUDO_ROLE
      <-> sudo_override_matches env userEmail \/ dbRole = js_string SUDO_ROLE).
Proof.
  split; [apply getEffectiveRole_override |].
  split; [apply getEffectiveRole_no_override |].
  split.
  - intros H. unfold getEffectiveRole in H.
    destruct (isSudoSession env userEmail) eqn:E.
    + left. now apply isSudoSession_spec.
    + right. destruct dbRole; simpl in H; try discriminate H. now injection H as ->.
  - intros [H | ->].
    + now apply getEffectiveRole_override.
    + unfold getEffectiveRole. destruct (isSudoSession env userEmail); reflexivity.
Qed.

End EffectiveRoleFacts.

(** ** The route guards *)

Module GuardFacts.

Import AuthProvider Guards Spec.

Lemma readEnvFlag_true (env : Env) (key : string) :
  readEnvFlag env key = true <-> env !! key = Some "true".
Proof. unfold readEnvFlag. apply bool_decide_eq_true. Qed.

Lemma flags_default_false : FEATURE_FLAGS ∅ = {|
  MAGIC_LINK := false; STAFF_DOMAIN_ENFORCEMENT := false;
  RBAC_V2 := false; SUDO_ADMIN := false |}.
Proof. reflexivity. Qed.

Lemma RBACGuard_flag_off (env : Env) (ctx : AuthContextValue) (location : string)
    (allowedRoles : list string) (fallbackPath : option string) :
  rbacV2Enabled env = false ->
  ctx_isAuthenticated ctx = true ->
  RBACGuard env ctx location allowedRoles fallbackPath
  = if ctx_isLoading ctx then loading_placeholder else children.
Proof.
  intros Hflag Hauth. unfold RBACGuard. rewrite Hflag, Hauth. reflexivity.
Qed.

Lemma RBACGuard_denied_needs_flag (env : Env) (ctx : AuthContextValue) (location : string)
    (allowedRoles : list string) (fallbackPath : option string) (to : string) :
  RBACGuard env ctx location allowedRoles fallbackPath = Navigate_accessDenied to ->
  rbacV2Enabled env = true.
Proof.
  unfold RBACGuard. intros H.
  destruct (ctx_isLoading ctx); [discriminate H |].
  destruct (ctx_isAuthenticated ctx); simpl in H; [| discriminate H].
  destruct (rbacV2Enabled env); [reflexivity | discriminate H].
Qed.

(** C10. A feature flag is on only when its environment value is exactly
    the string [true], so all are off by default. With the
    role-based-access-v2 flag off, [RBACGuard] renders its children for every
    authenticated session that is no longer loading, whatever the role and
    whatever [allowedRoles] holds; it sends a session to the fallback with
    the access-denied state only when the flag is on. *)
Theorem C10_rbac_guard_without_flag (env : Env) (ctx : AuthContextValue)
    (location : string) (allowedRoles : list string) (fallbackPath : option string) :
  (forall key, readEnvFlag env key = true <-> env !! key = Some "true")
  /\ rbacV2Enabled ∅ = false
  /\ (rbacV2Enabled env = true <-> env !! "VITE_ENABLE_ROLE_BASED_ACCESS_V2" = Some "true")
  /\ (rbacV2Enabled env = false -> ctx_isAuthenticated ctx = true ->
      ctx_isLoading ctx = false ->
      RBACGuard env ctx location allowedRoles fallbackPath = children)
  /\ (forall to,
        RBACGuard env ctx location allowedRoles fallbackPath = Navigate_accessDenied to ->
        rbacV2Enabled env = true).
Proof.
  split; [apply readEnvFlag_true |].
  split; [reflexivity |].
  split; [apply readEnvFlag_true |].
  split.
  - intros Hflag Hauth Hload. rewrite RBACGuard_flag_off by assumption. now rewrite Hload.
  - intros to. apply RBACGuard_denied_needs_flag.
Qed.

End GuardFacts.

Module RouteGuardFacts.

Import AuthProvider Guards Spec Samples.

Lemma role_in_true (allowedRoles : list string) (role : option string) :
  role_in allowedRoles role = true <-> exists r, role = Some r /\ In r allowedRoles.
Proof.
  destruct role as [r |]; simpl.
  - rewrite includes_true. split.
    + intros H. exists r. auto.
    + intros (r' & E & H). now injection E as ->.
  - split; [discriminate | intros (r' & E & _); discriminate E].
Qed.

Lemma admin_may_act_existsb (allowedRoles : list string) :
  admin_may_act allowedRoles ->
  existsb (fun r => bool_decide (r = STAFF) || bool_decide (r = STUDENT)
                    || bool_decide (r = ADMIN)) allowedRoles = true.
Proof.
  intros (r & Hin & Hr). apply existsb_exists. exists r. split; [exact Hin |].
  destruct Hr as [-> | [-> | ->]]; reflexivity.
Qed.

Lemma RBACGuard_admin_admitted (env : Env) (ctx : AuthContextValue) (location : string)
    (allowedRoles : list string) (fallbackPath : option string) :
  rbacV2Enabled env = true -> Authenticated ctx ->
  ctx_role ctx = Some ADMIN -> admin_may_act allowedRoles ->
  RBACGuard env ctx location allowedRoles fallbackPath = children.
Proof.
  intros Hflag [Hload Hauth] Hrole Hact. unfold RBACGuard.
  rewrite Hload, Hauth, Hflag, Hrole. simpl.
  destruct (includes allowedRoles ADMIN); [reflexivity |].
  now rewrite admin_may_act_existsb.
Qed.

Lemma RBACGuard_other_denied (env : Env) (ctx : AuthContextValue) (location : string)
    (allowedRoles : list string) (fallbackPath : option string) :
  rbacV2Enabled env = true -> Authenticated ctx ->
  ctx_role ctx <> Some ADMIN -> ctx_role ctx <> Some SUDO_ROLE ->
  role_in allowedRoles (ctx_role ctx) = false ->
  RBACGuard env ctx location allowedRoles fallbackPath
  = Navigate_accessDenied (default "/dashboard" fallbackPath).
Proof.
  intros Hflag [Hload Hauth] Hadmin Hsudo Hin. unfold RBACGuard.
  rewrite Hload, Hauth, Hflag, Hin. simpl.
  destruct (no_role (ctx_role ctx)); [reflexivity |].
  rewrite (bool_decide_eq_false_2 _ Hsudo), (bool_decide_eq_false_2 _ Hadmin).
  reflexivity.
Qed.

Lemma ProtectedRoute_listed_only (ctx : AuthContextValue) (location : string)
    (roles : list string) :
  Authenticated ctx -> roles <> [] ->
  ProtectedRoute ctx location (Some roles)
  = if no_role (ctx_role ctx) || negb (role_in roles (ctx_role ctx))
    then Navigate_accessDenied "/dashboard" else children.
Proof.
  intros [Hload Hauth] Hne. unfold ProtectedRoute. rewrite Hload, Hauth. simpl.
  destruct roles; [contradiction | reflexivity].
Qed.

(** Scenario E of the specification on [RBACGuard] with the flag on. *)
Example scenario_E_rbac_guard :
  RBACGuard rbac_v2_on (authenticated_as admin_profile) "/guides" [STAFF; STUDENT] None = children
  /\ RBACGuard rbac_v2_on (authenticated_as staff_profile) "/admin" [ADMIN] None
     = Navigate_accessDenied "/dashboard".
Proof. split; vm_compute; reflexivity. Qed.

(** C7, as stated, fails on [ProtectedRoute], the guard of the application's
    routes: an ADMIN asking for a route that requires STAFF or STUDENT is
    sent to [/dashboard] with the access-denied state. *)
Lemma C7_protected_route_counterexample :
  ~ route_guard_rule (protected_route (Some [STAFF; STUDENT]))
      (authenticated_as admin_profile) "/guides".
Proof.
  intros H. destruct H as [H _]; [split; reflexivity |].
  assert (E : decision (protected_route (Some [STAFF; STUDENT]))
                (authenticated_as admin_profile) "/guides" = children).
  { apply H; [reflexivity |]. exists STAFF. split; [now left | now left]. }
  vm_compute in E. discriminate E.
Qed.

(** The same statement also fails on [RBACGuard] while the flag is off: a
    STAFF session is admitted to a route that requires ADMIN. *)
Example rbac_guard_flag_off_admits_staff :
  RBACGuard ∅ (authenticated_as staff_profile) "/admin" [ADMIN] None = children.
Proof. vm_compute. reflexivity. Qed.

(** C7, amended. On an Authenticated session, [RBACGuard] with the
    role-based-access-v2 flag on admits ADMIN whenever [allowedRoles] holds
    any of STAFF, STUDENT or ADMIN, and sends a role that is neither ADMIN
    nor SUDO and is not in [allowedRoles] to the fallback path with the
    access-denied state. [ProtectedRoute] gives ADMIN no such widening: with
    a non-empty list it admits exactly the roles listed and sends the others
    to [/dashboard] with the access-denied state. *)
Theorem C7_route_guards (env : Env) (ctx : AuthContextValue) (location : string)
    (allowedRoles : list string) (fallbackPath : option string) :
  Authenticated ctx ->
  (rbacV2Enabled env = true -> ctx_role ctx = Some ADMIN -> admin_may_act allowedRoles ->
     RBACGuard env ctx location allowedRoles fallbackPath = children)
  /\ (rbacV2Enabled env = true ->
      ctx_role ctx <> Some ADMIN -> ctx_role ctx <> Some SUDO_ROLE ->
      role_in allowedRoles (ctx_role ctx) = false ->
      RBACGuard env ctx location allowedRoles fallbackPath
      = Navigate_accessDenied (default "/dashboard" fallbackPath))
  /\ (allowedRoles <> [] ->
      ProtectedRoute ctx location (Some allowedRoles)
      = if no_role (ctx_role ctx) || negb (role_in allowedRoles (ctx_role ctx))
        then Navigate_accessDenied "/dashboard" else children).
Proof.
  intros Hctx. split; [| split].
  - intros. now apply RBACGuard_admin_admitted.
  - intros. now apply RBACGuard_other_denied.
  - intros. now apply ProtectedRoute_listed_only.
Qed.

(** The theorem at work: an ADMIN session on a route for STAFF and STUDENT. *)
Lemma C7_route_guards_witness :
  RBACGuard rbac_v2_on (authenticated_as admin_profile) "/guides" [STAFF; STUDENT] None
  = children.
Proof.
  refine (proj1 (C7_route_guards rbac_v2_on (authenticated_as admin_profile) "/guides"
                   [STAFF; STUDENT] None _) _ _ _).
  - split; reflexivity.
  - reflexivity.
  - reflexivity.
  - exists STAFF. split; [left; reflexivity | left; reflexivity].
Defined.

End RouteGuardFacts.

(** ** Row-level security for STAFF and STUDENT *)

Module PolicyFacts.

Import Schema Spec Samples.

#[local] Arguments uid_has_role : simpl never.

(** Every statement on [public.users] ends in 42P17: each command has a
    policy with a sub-select on [public.users], whose own select policies
    hold a sub-select on [public.users] again. *)
Lemma expansion_users (v : SchemaVersion) (c : Command) (reads : bool) :
  expansion_error v users_table c reads = Some (infinite_recursion "users").
Proof. destruct v, c, reads; vm_compute; reflexivity. Qed.

(** So does every statement on [public.tutorials]: its policies read
    [public.users]. *)
Lemma expansion_tutorials (v : SchemaVersion) (c : Command) (reads : bool) :
  expansion_error v tutorials_table c reads = Some (infinite_recursion "users").
Proof. destruct v, c, reads; vm_compute; reflexivity. Qed.

(** On [public.audit_logs] a statement that needs the select policies ends
    in 42P17; an insert, update or delete that reads nothing does not. *)
Lemma expansion_audit_logs (v : SchemaVersion) (c : Command) (reads : bool) :
  expansion_error v audit_logs_table c reads
  = if bool_decide (c = SELECT) || reads then Some (infinite_recursion "users") else None.
Proof. destruct v, c, reads; vm_compute; reflexivity. Qed.

(** More fuel changes nothing: the expansion never runs out of it. *)
Lemma expansion_fuel (n : nat) (v : SchemaVersion) (t : Table) (c : Command) (reads : bool) :
  recursion_in (4 + n) (policies v) [] t (commands c reads)
  = recursion_in 4 (policies v) [] t (commands c reads).
Proof. destruct v, t, c, reads; vm_compute; reflexivity. Qed.

(** When the expansion succeeds, no policy attached to the statement holds
    a sub-select: the expressions then evaluated read the row and the uid
    only. *)
Lemma expansion_succeeds_without_subselect (v : SchemaVersion) (t : Table) (c : Command)
    (reads : bool) :
  expansion_error v t c reads = None ->
  flat_map sublinks (attached (policies v) t (commands c reads)) = [].
Proof. destruct v, t, c, reads; vm_compute; intros H; first [reflexivity | discriminate H]. Qed.

Lemma policy_check_recursion (db : Database) (uid : option string) (c : Command)
    (reads : bool) (r : Row) :
  table_of r <> audit_logs_table \/ c = SELECT \/ reads = true ->
  policy_check db uid c reads r = inl (infinite_recursion "users").
Proof.
  intros H. unfold policy_check. destruct r as [u | t | a]; simpl.
  - now rewrite expansion_users.
  - now rewrite expansion_tutorials.
  - rewrite expansion_audit_logs.
    destruct H as [H | [-> | ->]]; [now contradiction H | reflexivity |].
    now rewrite orb_true_r.
Qed.

Lemma authorize_users (db : Database) (uid : option string) (c : Command) (u : User) :
  authorize db uid c (users_row u) = false.
Proof. unfold authorize. rewrite policy_check_recursion; [reflexivity | left; discriminate]. Qed.

Lemma authorize_tutorials (db : Database) (uid : option string) (c : Command) (t : Tutorial) :
  authorize db uid c (tutorials_row t) = false.
Proof. unfold authorize. rewrite policy_check_recursion; [reflexivity | left; discriminate]. Qed.

Lemma authorize_audit_logs (db : Database) (uid : option string) (c : Command) (a : AuditLog) :
  authorize db uid c (audit_logs_row a)
  = bool_decide (c = INSERT) && bool_decide (uid <> None).
Proof.
  unfold authorize, policy_check. simpl. rewrite expansion_audit_logs.
  destruct c; simpl; try reflexivity;
    unfold permitted, policies; destruct (version db); simpl;
    rewrite ?orb_false_r, ?andb_true_r; reflexivity.
Qed.

Lemma insert_user_recursion (db : Database) (uid : option string) (u : User) :
  insert_user db uid u = inl (infinite_recursion "users").
Proof.
  unfold insert_user. rewrite policy_check_recursion; [reflexivity | left; discriminate].
Qed.

Lemma select_user_single_recursion (db : Database) (uid : option string) (userId : string) :
  select_user_single db uid userId = inl (infinite_recursion "users").
Proof. unfold select_user_single. now rewrite expansion_users. Qed.

(** The rule of the specification holds of every caller. *)
Lemma staff_student_rule_holds (db : Database) (me r : string) : staff_student_rule db me r.
Proof.
  intros _ _. split.
  - intros t H. rewrite authorize_tutorials in H. discriminate H.
  - intros c u. apply authorize_users.
Qed.

(** Scenario A of the specification: a STUDENT asking for a STAFF tutorial
    is not granted it; the tutorial of its own role is not granted either,
    the policy check of both reads ends in 42P17. *)
Example scenario_A (v : SchemaVersion) :
  authorize (sample_db v) (Some "student-1") SELECT (tutorials_row staff_tutorial) = false
  /\ authorize (sample_db v) (Some "student-1") SELECT (tutorials_row student_tutorial) = false
  /\ policy_check (sample_db v) (Some "student-1") SELECT true (tutorials_row student_tutorial)
     = inl (infinite_recursion "users").
Proof. destruct v; repeat split; vm_compute; reflexivity. Qed.

(** C8. For a caller whose role is STAFF or STUDENT, under either schema
    version: reading a tutorial is granted only when the tutorial's target
    role is the caller's role, and on [public.users] read, insert, update
    and delete are denied for every row. Both hold because the policy check
    of every statement on the two tables ends in the error 42P17, so
    nothing is granted on them at all. *)
Theorem C8_staff_student_policies (db : Database) (me r : string) :
  caller_has_role db me r -> r = STAFF \/ r = STUDENT ->
  (forall t, authorize db (Some me) SELECT (tutorials_row t) = true -> target_role t = r)
  /\ (forall c u, authorize db (Some me) c (users_row u) = false)
  /\ (forall c reads row, table_of row <> audit_logs_table ->
        policy_check db (Some me) c reads row = inl (infinite_recursion "users")).
Proof.
  intros Hme Hr. split; [| split].
  - intros t H. rewrite authorize_tutorials in H. discriminate H.
  - intros c u. apply authorize_users.
  - intros c reads row H. apply policy_check_recursion. now left.
Qed.

(** The theorem at work on the sample database. *)
Lemma C8_staff_student_policies_witness :
  (forall t, authorize (sample_db AuthUpgradeV2) (Some "student-1") SELECT (tutorials_row t) = true
             -> target_role t = STUDENT)
  /\ (forall c u, authorize (sample_db AuthUpgradeV2) (Some "student-1") c (users_row u) = false)
  /\ (forall c reads row, table_of row <> audit_logs_table ->
        policy_check (sample_db AuthUpgradeV2) (Some "student-1") c reads row
        = inl (infinite_recursion "users")).
Proof.
  apply (C8_staff_student_policies (sample_db AuthUpgradeV2) "student-1" STUDENT).
  - exists student_profile. split; reflexivity.
  - right. reflexivity.
Defined.

End PolicyFacts.

(** ** The audit emitters *)

Module AuditFacts.

Import Audit AuthProvider Samples.

(** An append that resolves with an error is logged and swallowed by
    [logAction]. *)
Lemma logAction_error_result_swallowed (w : World) (action : string)
    (details : option string) (e : Schema.PgError) :
  transport w = resolves_with_error e ->
  fst (logAction action details w) = Return tt
  /\ console (snd (logAction action details w))
     = (console w ++ [console_error "Error logging action:"])%list.
Proof.
  intros H. unfold logAction, mbind, App_bind, rpc_log_action. rewrite H.
  split; reflexivity.
Qed.

(** A rejected append leaves [logAction] by the exceptional exit. *)
Lemma logAction_rejection_propagates (w : World) (action : string)
    (details : option string) (e : JsError) :
  transport w = rejects e ->
  fst (logAction action details w) = Throw e
  /\ console (snd (logAction action details w)) = console w.
Proof.
  intros H. unfold logAction, mbind, App_bind, rpc_log_action. rewrite H.
  split; reflexivity.
Qed.

(** [logAuthEvent] always returns normally. *)
Lemma logAuthEvent_returns (w : World) (eventType : string)
    (details : list (string * string)) :
  fst (logAuthEvent eventType details w) = Return tt.
Proof.
  unfold logAuthEvent, mbind, App_bind, Date_toISOString, console_log, modify,
    try_catch, rpc_log_action, mret, App_ret. simpl.
  destruct (transport w); simpl; try reflexivity.
  destruct (Schema.log_action _ _ _ _); reflexivity.
Qed.

(** ... but an append that resolves with an error leaves no trace on the
    console beyond the line printed before the attempt. *)
Lemma logAuthEvent_error_result_unlogged (w : World) (eventType : string)
    (details : list (string * string)) (e : Schema.PgError) :
  transport w = resolves_with_error e ->
  console (snd (logAuthEvent eventType details w))
  = (console w ++ [console_info ("[AuthEvent] " ++ eventType ++ ":")%string])%list.
Proof.
  intros H.
  unfold logAuthEvent, mbind, App_bind, Date_toISOString, console_log, modify,
    try_catch, rpc_log_action, mret, App_ret. simpl. rewrite H. reflexivity.
Qed.

(** C9. The code at the failing input: the append rejects ("Failed to
    fetch"). [logAction] lets the rejection through to its caller, with
    nothing on the console; the sign-in it audits, which returns no error and
    ends with [isLoading] false when the append succeeds, now ends by the
    exceptional exit with [isLoading] left true. And when the append
    resolves with an error, [logAuthEvent] prints nothing about it. *)
Theorem C9_append_failure_reaches_the_caller :
  let failure := {| message := "Failed to fetch" |} in
  let healthy := sample_world Schema.BaseSchema None online in
  let failing := sample_world Schema.BaseSchema None (rejects failure) in
  let refused :=
    sample_world Schema.BaseSchema None (resolves_with_error (Schema.fetch_error "503")) in
  let email := "staff-1@chresouniversity.edu.zm" in
  logAction "LOGIN" (Some ("User logged in: " ++ email)) failing
  = (Throw failure,
     set_rpc_calls [("LOGIN", Some ("User logged in: " ++ email))] failing)
  /\ fst (signIn email "correct horse" healthy) = Return None
  /\ isLoading (auth (snd (signIn email "correct horse" healthy))) = false
  /\ fst (signIn email "correct horse" failing) = Throw failure
  /\ isLoading (auth (snd (signIn email "correct horse" failing))) = true
  /\ console (snd (logAuthEvent "MAGIC_LINK_SENT" [("email", email)] refused))
     = [console_info "[AuthEvent] MAGIC_LINK_SENT:"].
Proof. cbv zeta. repeat split; vm_compute; reflexivity. Qed.

End AuditFacts.

(** ** Writing a role into a profile *)

Module PersistenceFacts.

Import Schema AuthProvider Samples.

(** The constraint installed by the migration lets SUDO through. *)
Lemma migrated_check_accepts_sudo :
  users_role_check BaseSchema SUDO_ROLE = false
  /\ users_role_check AuthUpgradeV2 SUDO_ROLE = true.
Proof. split; reflexivity. Qed.


End PersistenceFacts.

(** ** Sign-in and the login event *)

Module SignInFacts.

Import Schema AuthProvider Samples.

#[local] Arguments Schema.log_action : simpl never.

(** Unfold the monadic plumbing of a client function applied to a world. *)
Ltac run_app :=
  cbv [signIn signUp onAuthStateChange signInWithPassword auth_signUp fetchUserProfile
       setIsLoading setSession setUser users_insert
       Audit.logAction Audit.rpc_log_action
       mbind App_bind mret App_ret modify get_world throw try_catch console_log
       Date_toISOString];
  simpl.

(** [signIn] issues the LOGIN request whenever the credential is accepted;
    it never looks at the profile. *)
Lemma signIn_emits_login (w : World) (email password : string) (s : Session) :
  signInWithPassword_response (auth_service w) email password = inr s ->
  rpc_calls (snd (signIn email password w))
  = (rpc_calls w ++ [("LOGIN", Some ("User logged in: " ++ email)%string)])%list.
Proof.
  intros H. run_app. rewrite H. run_app.
  destruct (transport w); simpl; try reflexivity.
  destruct (Schema.log_action _ _ _ _); reflexivity.
Qed.

(** A rejected credential issues nothing and leaves session, profile and
    uid as they were. *)
Lemma signIn_rejected (w : World) (email password : string) (e : JsError) :
  signInWithPassword_response (auth_service w) email password = inl e ->
  signIn email password w
  = (Return (Some e),
     set_auth {| session := session (auth w); user := user (auth w); isLoading := false |} w).
Proof.
  intros H. run_app. rewrite H. reflexivity.
Qed.

(** C4. The code at the failing input: the identity [ghost-1] has no row in
    [public.users] and presents a valid password. [signIn] reports no error
    and has issued the LOGIN audit request; the auth-state listener then
    finds no profile, so the session is verified but not authenticated. *)
Theorem C4_login_event_without_profile :
  let email := "ghost-1@chresouniversity.edu.zm" in
  let w0 := sample_world BaseSchema None online in
  let w1 := snd (signIn email "correct horse" w0) in
  let w2 := snd (onAuthStateChange "SIGNED_IN" (Some (session_of "ghost-1")) w1) in
  users (db w0) !! "ghost-1" = None
  /\ fst (signIn email "correct horse" w0) = Return None
  /\ rpc_calls w1 = [("LOGIN", Some ("User logged in: " ++ email))]
  /\ useAuth (auth w2) = verified_no_profile "ghost-1"
  /\ ctx_isAuthenticated (useAuth (auth w2)) = false.
Proof. cbv zeta. repeat split; vm_compute; reflexivity. Qed.

(** What the store does with that request: the foreign key of
    [audit_logs.user_id] refuses it, and [logAction] prints the error. *)
Example ghost_login_row_refused :
  let w1 := snd (signIn "ghost-1@chresouniversity.edu.zm" "correct horse"
                   (sample_world BaseSchema None online)) in
  audit_logs (db w1) = [] /\ console w1 = [console_error "Error logging action:"].
Proof. cbv zeta. split; vm_compute; reflexivity. Qed.

End SignInFacts.

(** ** The login page: messages and the bounded wait *)

Module LoginPageFacts.

Import AuthProvider Guards LoginPage LoginPageInvariants Samples.

#[local] Arguments clear_login_timeout : simpl never.
#[local] Arguments Schema.log_action : simpl never.

Lemma filter_none {A : Type} (P : A -> Prop) `{forall x, Decision (P x)} (l : list A) :
  (forall x, x ∈ l -> ~ P x) -> filter P l = [].
Proof.
  induction l as [| a l IH]; intros H0; [reflexivity |].
  rewrite filter_cons_False by (apply H0; left).
  apply IH. intros x Hx. apply H0. now right.
Qed.

Lemma filter_all {A : Type} (P : A -> Prop) `{forall x, Decision (P x)} (l : list A) :
  (forall x, x ∈ l -> P x) -> filter P l = l.
Proof.
  induction l as [| a l IH]; intros H0; [reflexivity |].
  rewrite filter_cons_True by (apply H0; left).
  f_equal. apply IH. intros x Hx. apply H0. now right.
Qed.

Lemma messages_distinct :
  PROFILE_NOT_FOUND_MESSAGE <> LOGIN_FAILED_MESSAGE
  /\ PROFILE_NOT_FOUND_MESSAGE <> LOGIN_TIMEOUT_MESSAGE
  /\ LOGIN_FAILED_MESSAGE <> LOGIN_TIMEOUT_MESSAGE.
Proof. repeat split; discriminate. Qed.

Lemma clear_login_timeout_st (p : Page) : st (clear_login_timeout p) = st p.
Proof. unfold clear_login_timeout. destruct (loginTimeoutRef p); reflexivity. Qed.

Lemma clear_login_timeout_time (p : Page) : time (clear_login_timeout p) = time p.
Proof. unfold clear_login_timeout. destruct (loginTimeoutRef p); reflexivity. Qed.

Lemma clear_login_timeout_navigated (p : Page) :
  navigated (clear_login_timeout p) = navigated p.
Proof. unfold clear_login_timeout. destruct (loginTimeoutRef p); reflexivity. Qed.

Lemma clear_login_timeout_ref (p : Page) : loginTimeoutRef (clear_login_timeout p) = None.
Proof. unfold clear_login_timeout. destruct (loginTimeoutRef p) eqn:E; [reflexivity | exact E]. Qed.

(** Clearing the ref's timer empties the queue when every pending timer is
    the one the ref holds. *)
Lemma clear_login_timeout_pending (D : nat) (p : Page) :
  (forall t, t ∈ pending p -> due t = D /\ loginTimeoutRef p = Some (handle t)) ->
  pending (clear_login_timeout p) = [].
Proof.
  intros H. unfold clear_login_timeout.
  destruct (loginTimeoutRef p) as [h |] eqn:E; simpl.
  - apply filter_none. intros t Ht Hne. destruct (H t Ht) as [_ Hh].
    injection Hh as ->. now apply Hne.
  - destruct (pending p) as [| t l]; [reflexivity |].
    destruct (H t) as [_ Hh]; [left | discriminate Hh].
Qed.

Lemma clear_login_timeout_subset (p : Page) (t : Timer) :
  t ∈ pending (clear_login_timeout p) -> t ∈ pending p.
Proof.
  unfold clear_login_timeout. destruct (loginTimeoutRef p); simpl; [| trivial].
  intros Ht. apply list_elem_of_filter in Ht. tauto.
Qed.

Ltac effect_cases :=
  unfold effects, success_effect, profile_not_found_effect, already_authenticated_effect;
  repeat match goal with
         | |- context [if ?b then _ else _] => destruct b eqn:?
         end;
  cbv [navigate setIsLoading setLoginAttempted setError set_st]; simpl;
  rewrite ?clear_login_timeout_st, ?clear_login_timeout_time,
    ?clear_login_timeout_navigated, ?clear_login_timeout_ref; simpl.

Lemma effects_time (ctx : AuthContextValue) (from : string) (p : Page) :
  time (effects ctx from p) = time p.
Proof. effect_cases; reflexivity. Qed.

(** The effects never arm a timer. *)
Lemma effects_pending_subset (ctx : AuthContextValue) (from : string) (p : Page) (t : Timer) :
  t ∈ pending (effects ctx from p) -> t ∈ pending p.
Proof. effect_cases; auto using clear_login_timeout_subset. Qed.

(** The only message the effects ever set is the profile-not-found one. *)
Lemma effects_error (ctx : AuthContextValue) (from : string) (p : Page) :
  error (st (effects ctx from p)) = error (st p)
  \/ error (st (effects ctx from p)) = PROFILE_NOT_FOUND_MESSAGE.
Proof. effect_cases; auto. Qed.

Lemma effects_waiting (D : nat) (ctx : AuthContextValue) (from : string) (p : Page) :
  waiting D p -> waiting D (effects ctx from p).
Proof.
  intros (Hp & He & Hl).
  pose proof (clear_login_timeout_pending D p Hp) as Hclear.
  unfold waiting.
  effect_cases; rewrite ?Hclear; refine (conj _ (conj _ _));
    first [ exact He | exact Hl | exact Hp | discriminate | intros _; reflexivity
          | intros t Ht; now apply elem_of_nil in Ht ].
Qed.

(** A render with an authenticated context leaves no timer pending. *)
Lemma effects_success_settles (D : nat) (ctx : AuthContextValue) (from : string) (p : Page) :
  waiting D p ->
  ctx_isAuthenticated ctx = true -> no_role (ctx_role ctx) = false ->
  settled (effects ctx from p).
Proof.
  intros (Hp & He & Hl) Hauth Hrole.
  pose proof (clear_login_timeout_pending D p Hp) as Hclear.
  unfold settled, effects, success_effect, profile_not_found_effect,
    already_authenticated_effect.
  rewrite Hauth, Hrole. simpl. rewrite !andb_false_r, andb_true_r.
  destruct (loginAttempted (st p)) eqn:Hla; simpl.
  - destruct (bool_decide (ctx_role ctx = Some ADMIN)); simpl;
      rewrite ?clear_login_timeout_st, Hclear; auto.
  - destruct (bool_decide (ctx_role ctx = Some ADMIN)); simpl; auto.
Qed.

Lemma effects_settled (ctx : AuthContextValue) (from : string) (p : Page) :
  settled p -> settled (effects ctx from p).
Proof.
  intros [Hp He]. split.
  - destruct (pending (effects ctx from p)) as [| t l] eqn:E; [reflexivity |].
    assert (Ht : t ∈ pending p) by (apply (effects_pending_subset ctx from); rewrite E; left).
    rewrite Hp in Ht. now apply elem_of_nil in Ht.
  - destruct (effects_error ctx from p) as [-> | ->]; [exact He | discriminate].
Qed.

(** Before the timer is due, the passage of time changes nothing but the
    clock. *)
Lemma advance_before_due (D d : nat) (p : Page) :
  (forall t, t ∈ pending p -> due t = D) ->
  time p + d < D ->
  advance d p
  = {| st := st p; loginTimeoutRef := loginTimeoutRef p; pending := pending p;
       next_handle := next_handle p; time := time p + d; navigated := navigated p |}.
Proof.
  intros H Hlt. unfold advance.
  rewrite (filter_none (fun t => due t <= time p + d)).
  2: { intros t Ht. rewrite (H t Ht). lia. }
  rewrite (filter_all (fun t => time p + d < due t)).
  2: { intros t Ht. rewrite (H t Ht). lia. }
  reflexivity.
Qed.

Lemma advance_waiting (D d : nat) (p : Page) :
  waiting D p -> time p + d < D ->
  waiting D (advance d p) /\ time (advance d p) = time p + d.
Proof.
  intros (Hp & He & Hl) Hlt.
  rewrite (advance_before_due D) by (try assumption; intros t Ht; now apply Hp).
  split; [| reflexivity]. repeat split; simpl; auto; now apply Hp.
Qed.

(** With nothing pending, no callback ever runs. *)
Lemma advance_settled (d : nat) (p : Page) : settled p -> settled (advance d p).
Proof.
  intros [Hp He]. unfold advance. rewrite Hp. simpl. split; [reflexivity | exact He].
Qed.

Lemma step_settled (ev : Event) (p : Page) : settled p -> settled (step p ev).
Proof. destruct ev; simpl; auto using effects_settled, advance_settled. Qed.

Lemma run_settled (evs : list Event) (p : Page) : settled p -> settled (run p evs).
Proof.
  revert p. induction evs as [| ev evs IH]; intros p Hp; [exact Hp |].
  simpl. apply IH. now apply step_settled.
Qed.

Lemma run_waiting (D : nat) (evs : list Event) (p : Page) :
  waiting D p -> time p + elapsed evs < D -> waiting D (run p evs).
Proof.
  revert p. induction evs as [| ev evs IH]; intros p Hp Hlt; [exact Hp |].
  simpl. destruct ev as [ctx from | d]; simpl in *.
  - apply IH; [now apply effects_waiting | now rewrite effects_time].
  - destruct (advance_waiting D d p Hp) as [Hw Ht]; [lia |].
    apply IH; [exact Hw | rewrite Ht; lia].
Qed.

(** An accepted submission on a page with no timer pending arms exactly
    one, due [LOGIN_TIMEOUT_MS] later. *)
Lemma handleLogin_arms (p : Page) :
  pending p = [] ->
  waiting (time p + LOGIN_TIMEOUT_MS) (handleLogin_resume None (handleLogin_submit p))
  /\ time (handleLogin_resume None (handleLogin_submit p)) = time p
  /\ pending (handleLogin_resume None (handleLogin_submit p))
     = [{| handle := next_handle p; due := time p + LOGIN_TIMEOUT_MS |}].
Proof.
  intros Hp. unfold handleLogin_resume, handleLogin_submit, arm_login_timeout. simpl.
  rewrite Hp. simpl. split; [| split; reflexivity].
  split; [| split; [discriminate | discriminate]].
  intros t Ht. apply list_elem_of_singleton in Ht. subst t. split; reflexivity.
Qed.

Lemma run_app_one (p : Page) (evs : list Event) (ev : Event) :
  run p (evs ++ [ev]) = step (run p evs) ev.
Proof. unfold run. now rewrite fold_left_app. Qed.

(** Scenario D of the specification: with no outcome, the timer fires. *)
Example scenario_D :
  let armed := handleLogin_resume None (handleLogin_submit (initial_page 0)) in
  error (st (run armed [time_passed LOGIN_TIMEOUT_MS])) = LOGIN_TIMEOUT_MESSAGE
  /\ loginAttempted (st (run armed [time_passed LOGIN_TIMEOUT_MS])) = false.
Proof. cbv zeta. split; vm_compute; reflexivity. Qed.

(** C6. A submission accepted on a page with no timer pending arms one
    timer, due ten seconds later. If, after any renders and any passage of
    time shorter than those ten seconds, the page is rendered with an
    authenticated context that carries a role, then no timer is pending any
    more, and whatever renders and passage of time follow, however long, the
    timeout message is not shown. *)
Theorem C6_success_cancels_login_timeout (p : Page) (before after : list Event)
    (ctx : AuthContextValue) (from : string) :
  pending p = [] ->
  elapsed before < LOGIN_TIMEOUT_MS ->
  ctx_isAuthenticated ctx = true -> no_role (ctx_role ctx) = false ->
  let armed := handleLogin_resume None (handleLogin_submit p) in
  let succeeded := run armed (before ++ [context_changed ctx from]) in
  pending armed = [{| handle := next_handle p; due := time p + LOGIN_TIMEOUT_MS |}]
  /\ pending succeeded = []
  /\ error (st (run succeeded after)) <> LOGIN_TIMEOUT_MESSAGE.
Proof.
  intros Hp Hlt Hauth Hrole armed succeeded.
  destruct (handleLogin_arms p Hp) as (Hw & Ht & Hpend).
  split; [exact Hpend |].
  assert (Hs : settled succeeded).
  { unfold succeeded. rewrite run_app_one. simpl.
    apply (effects_success_settles (time p + LOGIN_TIMEOUT_MS)); try assumption.
    apply run_waiting; [exact Hw |]. fold armed. unfold armed at 1. rewrite Ht. lia. }
  split; [apply Hs |].
  now apply run_settled.
Qed.

(** The theorem at work: success after nine seconds, then a minute passes. *)
Lemma C6_success_cancels_login_timeout_witness :
  let armed := handleLogin_resume None (handleLogin_submit (initial_page 0)) in
  let succeeded :=
    run armed ([time_passed (9 * 1000)]
               ++ [context_changed (authenticated_as staff_profile) "/dashboard"]) in
  pending armed = [{| handle := 0; due := 0 + LOGIN_TIMEOUT_MS |}]
  /\ pending succeeded = []
  /\ error (st (run succeeded [time_passed (60 * 1000)])) <> LOGIN_TIMEOUT_MESSAGE.
Proof.
  apply (C6_success_cancels_login_timeout (initial_page 0) [time_passed (9 * 1000)]
           [time_passed (60 * 1000)] (authenticated_as staff_profile) "/dashboard").
  - reflexivity.
  - unfold elapsed, LOGIN_TIMEOUT_MS. simpl fold_right. lia.
  - reflexivity.
  - reflexivity.
Defined.

Lemma signIn_accepted (w : World) (email password : string) (s : Session) :
  signInWithPassword_response (auth_service w) email password = inr s ->
  (forall e, transport w <> rejects e) ->
  fst (signIn email password w) = Return None.
Proof.
  intros H Ht. SignInFacts.run_app. rewrite H. SignInFacts.run_app.
  destruct (transport w) as [| e | e] eqn:E; simpl.
  - destruct (Schema.log_action _ _ _ _); reflexivity.
  - reflexivity.
  - now destruct (Ht e).
Qed.

Lemma handleLogin_rejected (p : Page) (w : World) (e : JsError) :
  signInWithPassword_response (auth_service w) (email (st p)) (password (st p)) = inl e ->
  handleLogin p w
  = (handleLogin_resume (Some e) (handleLogin_submit p),
     snd (AuthProvider.setIsLoading false w)).
Proof.
  intros H. unfold handleLogin. now rewrite (SignInFacts.signIn_rejected w _ _ e H).
Qed.

Lemma profile_not_found_shown (p : Page) (ctx : AuthContextValue) (from : string) :
  loginAttempted (st p) = true -> ctx_isLoading ctx = false ->
  is_Some (ctx_session ctx) -> ctx_isAuthenticated ctx = false ->
  error (st (effects ctx from p)) = PROFILE_NOT_FOUND_MESSAGE
  /\ isLoading (st (effects ctx from p)) = false
  /\ loginAttempted (st (effects ctx from p)) = false
  /\ loginTimeoutRef (effects ctx from p) = None
  /\ navigated (effects ctx from p) = navigated p.
Proof.
  intros Hla Hload Hs Hauth.
  unfold effects, success_effect, profile_not_found_effect, already_authenticated_effect.
  rewrite Hla, Hload, Hauth, (bool_decide_eq_true_2 _ Hs). simpl.
  rewrite clear_login_timeout_ref, clear_login_timeout_navigated. auto.
Qed.

(** Scenario B of the specification, end to end: an identity without a
    profile signs in; the page shows the profile-not-found message and the
    route guard sends the session to the sign-in page. *)
Example scenario_B :
  let email := "ghost-1@chresouniversity.edu.zm" in
  let r := handleLogin (login_form email "correct horse")
             (sample_world Schema.BaseSchema None online) in
  let w := snd (onAuthStateChange "SIGNED_IN" (Some (session_of "ghost-1")) (snd r)) in
  let p := effects (useAuth (auth w)) "/dashboard" (fst r) in
  error (st p) = PROFILE_NOT_FOUND_MESSAGE
  /\ pending p = []
  /\ ProtectedRoute (useAuth (auth w)) "/dashboard" None = Navigate_login "/dashboard".
Proof. cbv zeta. repeat split; vm_compute; reflexivity. Qed.

(** C5. The profile-not-found message is a text of its own, different from
    the credential-rejected one. When the credential is accepted the
    handler shows no error and starts waiting; a render in which the
    identity is verified but no profile was found then shows the
    profile-not-found message, stops waiting and navigates nowhere. When
    the credential is rejected the handler shows the service's message (or
    the default credential text), does not start waiting, arms no timer, and
    session, profile and uid stay as they were, with no audit request
    issued. *)
Theorem C5_profile_not_found_is_distinct (p : Page) (w : World)
    (ctx : AuthContextValue) (from : string) :
  PROFILE_NOT_FOUND_MESSAGE <> LOGIN_FAILED_MESSAGE
  /\ (forall s,
        signInWithPassword_response (auth_service w) (email (st p)) (password (st p)) = inr s ->
        (forall e, transport w <> rejects e) ->
        error (st (fst (handleLogin p w))) = EmptyString
        /\ loginAttempted (st (fst (handleLogin p w))) = true)
  /\ (loginAttempted (st p) = true -> ctx_isLoading ctx = false ->
      is_Some (ctx_session ctx) -> ctx_isAuthenticated ctx = false ->
      error (st (effects ctx from p)) = PROFILE_NOT_FOUND_MESSAGE
      /\ isLoading (st (effects ctx from p)) = false
      /\ loginAttempted (st (effects ctx from p)) = false
      /\ navigated (effects ctx from p) = navigated p)
  /\ (forall e,
        signInWithPassword_response (auth_service w) (email (st p)) (password (st p)) = inl e ->
        error (st (fst (handleLogin p w)))
        = (if bool_decide (message e = EmptyString) then LOGIN_FAILED_MESSAGE else message e)
        /\ isLoading (st (fst (handleLogin p w))) = false
        /\ loginAttempted (st (fst (handleLogin p w))) = loginAttempted (st p)
        /\ pending (fst (handleLogin p w)) = pending p
        /\ session (auth (snd (handleLogin p w))) = session (auth w)
        /\ user (auth (snd (handleLogin p w))) = user (auth w)
        /\ uid (snd (handleLogin p w)) = uid w
        /\ rpc_calls (snd (handleLogin p w)) = rpc_calls w).
Proof.
  split; [apply messages_distinct |].
  split; [| split].
  - intros s Hs Ht. unfold handleLogin.
    pose proof (signIn_accepted w _ _ s Hs Ht) as E.
    destruct (signIn (email (st p)) (password (st p)) w) as [c w']. simpl in E. subst c.
    split; reflexivity.
  - intros Hla Hload Hs Hauth.
    destruct (profile_not_found_shown p ctx from Hla Hload Hs Hauth) as (H1 & H2 & H3 & _ & H5).
    auto.
  - intros e He. rewrite (handleLogin_rejected p w e He). simpl. repeat split; reflexivity.
Qed.

End LoginPageFacts.

(** * Further properties of the code *)

(** ** Lower-casing, trimming and suffixes *)

Module TextFacts.

Import Text.

Lemma lower_char_idem (c : ascii) : lower_char (lower_char c) = lower_char c.
Proof. destruct c as [[] [] [] [] [] [] [] []]; reflexivity. Qed.

Lemma lower_char_whitespace (c : ascii) : isWhiteSpace (lower_char c) = isWhiteSpace c.
Proof. destruct c as [[] [] [] [] [] [] [] []]; reflexivity. Qed.

Lemma lower_char_not_upper (c : ascii) :
  (let n := nat_of_ascii (lower_char c) in (65 <=? n) && (n <=? 90))%nat = false.
Proof. destruct c as [[] [] [] [] [] [] [] []]; reflexivity. Qed.

Lemma toLowerCase_idem (s : string) : toLowerCase (toLowerCase s) = toLowerCase s.
Proof. induction s as [| c s IH]; simpl; [reflexivity |]. now rewrite lower_char_idem, IH. Qed.

Lemma toLowerCase_empty (s : string) : toLowerCase s = EmptyString <-> s = EmptyString.
Proof. destruct s; simpl; split; intros H; try reflexivity; discriminate H. Qed.

Lemma toLowerCase_trimStart (s : string) :
  toLowerCase (trimStart s) = trimStart (toLowerCase s).
Proof.
  induction s as [| c s IH]; simpl; [reflexivity |].
  rewrite lower_char_whitespace. destruct (isWhiteSpace c); [exact IH | reflexivity].
Qed.

Lemma toLowerCase_trimEnd (s : string) :
  toLowerCase (trimEnd s) = trimEnd (toLowerCase s).
Proof.
  induction s as [| c s IH]; simpl; [reflexivity |].
  rewrite <- IH, lower_char_whitespace.
  destruct (trimEnd s); simpl; [destruct (isWhiteSpace c) |]; reflexivity.
Qed.

(** Lower-casing and trimming commute. *)
Lemma toLowerCase_trim (s : string) : toLowerCase (trim s) = trim (toLowerCase s).
Proof. unfold trim. now rewrite toLowerCase_trimEnd, toLowerCase_trimStart. Qed.

(** A string that does not begin with white space is left alone. *)
Lemma trimStart_fixed (s : string) :
  match s with String c _ => isWhiteSpace c = false | EmptyString => True end ->
  trimStart s = s.
Proof. destruct s as [| c s]; simpl; [reflexivity |]. now intros ->. Qed.

Lemma trimStart_head (s : string) :
  match trimStart s with String c _ => isWhiteSpace c = false | EmptyString => True end.
Proof.
  induction s as [| c s IH]; simpl; [exact I |].
  destruct (isWhiteSpace c) eqn:E; [exact IH | exact E].
Qed.

Lemma trimEnd_head (s : string) :
  match s with String c _ => isWhiteSpace c = false | EmptyString => True end ->
  match trimEnd s with String c _ => isWhiteSpace c = false | EmptyString => True end.
Proof.
  destruct s as [| c s]; simpl; [trivial |]. intros H. rewrite H.
  destruct (trimEnd s); exact H.
Qed.

Lemma trimEnd_idem (s : string) : trimEnd (trimEnd s) = trimEnd s.
Proof.
  induction s as [| c s IH]; simpl; [reflexivity |].
  destruct (trimEnd s) as [| d t] eqn:E.
  - destruct (isWhiteSpace c) eqn:Ec; simpl; [reflexivity | now rewrite Ec].
  - simpl in *. now rewrite IH.
Qed.

Lemma trim_idem (s : string) : trim (trim s) = trim s.
Proof.
  unfold trim. rewrite (trimStart_fixed (trimEnd (trimStart s))).
  - apply trimEnd_idem.
  - apply trimEnd_head, trimStart_head.
Qed.

(** Normalising an address twice is normalising it once. *)
Lemma normalize_idem (s : string) :
  trim (toLowerCase (trim (toLowerCase s))) = trim (toLowerCase s).
Proof. now rewrite toLowerCase_trim, toLowerCase_idem, trim_idem. Qed.

Lemma has_upper_app (a b : string) : has_upper (a ++ b) = has_upper a || has_upper b.
Proof.
  induction a as [| c a IH]; simpl; [reflexivity |]. rewrite IH. now rewrite orb_assoc.
Qed.

Lemma has_upper_lower (s : string) : has_upper (toLowerCase s) = false.
Proof.
  induction s as [| c s IH]; simpl; [reflexivity |].
  rewrite IH, orb_false_r. apply lower_char_not_upper.
Qed.

Lemma has_upper_trimStart (s : string) : has_upper s = false -> has_upper (trimStart s) = false.
Proof.
  induction s as [| c s IH]; simpl; [trivial |]. intros H.
  apply orb_false_iff in H as [H1 H2].
  destruct (isWhiteSpace c); [now apply IH |]. simpl. now rewrite H1, H2.
Qed.

Lemma has_upper_trimEnd (s : string) : has_upper s = false -> has_upper (trimEnd s) = false.
Proof.
  induction s as [| c s IH]; simpl; [trivial |]. intros H.
  apply orb_false_iff in H as [H1 H2]. specialize (IH H2).
  destruct (trimEnd s); simpl in *.
  - destruct (isWhiteSpace c); simpl; [reflexivity | now rewrite H1].
  - now rewrite H1, IH.
Qed.

Lemma endsWith_spec (s suffix : string) :
  endsWith s suffix = true <-> exists pre, s = pre ++ suffix.
Proof.
  induction s as [| c s IH]; simpl.
  - rewrite orb_false_r, bool_decide_eq_true. split.
    + intros <-. now exists EmptyString.
    + intros [pre H]. destruct pre; simpl in H; [exact H | discriminate H].
  - rewrite orb_true_iff, bool_decide_eq_true, IH. split.
    + intros [<- | [pre ->]]; [now exists EmptyString | now exists (String c pre)].
    + intros [pre H]. destruct pre as [| d pre]; simpl in H.
      * now left.
      * right. injection H as -> ->. now exists pre.
Qed.

(** A normalised address never ends with a suffix that holds an upper-case
    letter. *)
Lemma endsWith_normalized_upper (email suffix : string) :
  has_upper suffix = true -> endsWith (trim (toLowerCase email)) suffix = false.
Proof.
  intros Hup. destruct (endsWith _ _) eqn:E; [| reflexivity].
  apply endsWith_spec in E as [pre E].
  assert (H : has_upper (trim (toLowerCase email)) = false).
  { unfold trim. apply has_upper_trimEnd, has_upper_trimStart, has_upper_lower. }
  rewrite E, has_upper_app, Hup, orb_true_r in H. discriminate H.
Qed.

End TextFacts.

(** ** The SUDO test, the staff domain and the magic-link senders *)

Module IdentityFacts.

Import Text TextFacts LegacyFlags SudoConfig AuthConfig MagicLink Samples MoreSamples.

#[local] Arguments Schema.log_action : simpl never.

(** Unfold the monadic plumbing, leaving the functions of the code. *)
Ltac run_monad :=
  cbv [mbind App_bind mret App_ret modify get_world throw try_catch console_log
       Date_toISOString Audit.logAction Audit.rpc_log_action];
  simpl.

(** X1. The two implementations of the SUDO test, [isSudoAdmin] of
    [sudoConfig.ts] and [isSudoSession] of [sudoGuard.ts], return the same
    answer for every environment and every e-mail value, and when
    [isSudoConfigured] is false that answer is false. They differ in one
    effect: [isSudoAdmin] prints a warning when it is given an address, the
    flag is on and no SUDO address is configured, and changes nothing
    otherwise. *)
Theorem isSudoAdmin_agrees_with_isSudoSession (env : Env) (email : maybe_string) (w : World) :
  fst (isSudoAdmin env email w) = Return (SudoGuard.isSudoSession env email)
  /\ snd (isSudoAdmin env email w)
     = (if truthy email && isFeatureEnabled env ENABLE_SUDO_ADMIN
           && negb (truthy (SUDO_CONFIG_email env))
        then set_console
               (console w ++ [console_warn "SUDO admin email not configured in environment"]) w
        else w)
  /\ (isSudoConfigured env = false -> SudoGuard.isSudoSession env email = false).
Proof.
  unfold isSudoAdmin, isSudoConfigured, SudoGuard.isSudoSession, SUDO_CONFIG_email,
    isFeatureEnabled, getFeatureFlags. simpl.
  destruct (readEnvFlag env "VITE_ENABLE_SUDO_ADMIN"); simpl;
    rewrite ?orb_true_r, ?orb_false_r, ?andb_false_r, ?andb_true_r.
  2: { repeat split; reflexivity. }
  destruct (env !! "VITE_SUDO_ADMIN_EMAIL") as [c |]; simpl.
  - destruct email as [| | e]; simpl; try (repeat split; reflexivity).
    destruct (bool_decide (e = EmptyString)), (bool_decide (c = EmptyString)); simpl;
      repeat split; try reflexivity; discriminate.
  - destruct email as [| | e]; simpl; try (repeat split; reflexivity).
    destruct (bool_decide (e = EmptyString)); repeat split; reflexivity.
Qed.

(** The warning at work: the flag is on and no address is configured. *)
Example isSudoAdmin_warns :
  let env : Env := <["VITE_ENABLE_SUDO_ADMIN" := "true"]> ∅ in
  let w := sample_world Schema.BaseSchema None online in
  isSudoAdmin env (js_string "root@x.edu") w
  = (Return false,
     set_console [console_warn "SUDO admin email not configured in environment"] w).
Proof. vm_compute. reflexivity. Qed.

(** X2. [isSudoSession] does not depend on the case of the identity e-mail
    nor on white space around it: an address whose normal form is not empty
    gets the answer its normal form gets. *)
Theorem isSudoSession_ignores_case_and_space (env : Env) (email : string) :
  trim (toLowerCase email) <> EmptyString ->
  SudoGuard.isSudoSession env (js_string email)
  = SudoGuard.isSudoSession env (js_string (trim (toLowerCase email))).
Proof.
  intros Hn. unfold SudoGuard.isSudoSession.
  destruct (SUDO_ADMIN (FEATURE_FLAGS env)); simpl; [| reflexivity].
  destruct (env !! "VITE_SUDO_ADMIN_EMAIL") as [c |]; simpl; [| reflexivity].
  assert (He : email <> EmptyString) by (intros ->; now apply Hn).
  rewrite (bool_decide_eq_false_2 _ He), (bool_decide_eq_false_2 _ Hn). simpl.
  now rewrite normalize_idem.
Qed.

Lemma isSudoSession_ignores_case_and_space_witness :
  SudoGuard.isSudoSession
    (<["VITE_ENABLE_SUDO_ADMIN" := "true"]> (<["VITE_SUDO_ADMIN_EMAIL" := "root@x.edu"]> ∅))
    (js_string " Root@X.EDU ")
  = SudoGuard.isSudoSession
      (<["VITE_ENABLE_SUDO_ADMIN" := "true"]> (<["VITE_SUDO_ADMIN_EMAIL" := "root@x.edu"]> ∅))
      (js_string (trim (toLowerCase " Root@X.EDU "))).
Proof.
  apply (isSudoSession_ignores_case_and_space _ " Root@X.EDU ").
  vm_compute. discriminate.
Defined.

Lemma shouldEnforceStaffDomain_true (env : Env) :
  shouldEnforceStaffDomain env = true
  <-> env !! "VITE_ENABLE_STAFF_DOMAIN_ENFORCEMENT" = Some "true"
      /\ exists d, env !! "VITE_STAFF_EMAIL_DOMAIN" = Some d /\ d <> EmptyString.
Proof.
  unfold shouldEnforceStaffDomain, isFeatureEnabled, getFeatureFlags, staffEmailDomain. simpl.
  rewrite andb_true_iff. unfold readEnvFlag. rewrite bool_decide_eq_true.
  destruct (env !! "VITE_STAFF_EMAIL_DOMAIN") as [d |]; simpl.
  - rewrite negb_true_iff, bool_decide_eq_false. split.
    + intros [H1 H2]. split; [exact H1 |]. now exists d.
    + intros [H1 (d' & E & H2)]. injection E as <-. now split.
  - split; [intros [_ H]; discriminate H | intros [_ (d & E & _)]; discriminate E].
Qed.

Lemma validateStaffEmail_enforced (env : Env) (email d : string) (w : World) :
  shouldEnforceStaffDomain env = true ->
  env !! "VITE_STAFF_EMAIL_DOMAIN" = Some d ->
  validateStaffEmail env email w
  = (Return (if endsWith (trim (toLowerCase email)) ("@" ++ toLowerCase d) then None
             else Some ("Staff login requires a @" ++ d ++ " email address")), w).
Proof.
  intros He Hd. apply shouldEnforceStaffDomain_true in He as He'.
  destruct He' as [_ (d' & E & Hne)]. rewrite Hd in E. injection E as <-.
  unfold validateStaffEmail, isStaffEmail, domain_text, staffEmailDomain.
  rewrite He, Hd. simpl. rewrite (bool_decide_eq_false_2 _ Hne). run_monad.
  destruct (endsWith _ _); reflexivity.
Qed.

(** X3. [validateStaffEmail] fails open and has no effect: unless the
    enforcement flag is exactly [true] and a non-empty domain is configured
    it accepts every address, and in every case it leaves the world (console
    included) as it was. When it does enforce, it accepts exactly the
    addresses whose normal form ends with [@] and the lower-cased domain. *)
Theorem validateStaffEmail_fails_open (env : Env) (email : string) (w : World) :
  snd (validateStaffEmail env email w) = w
  /\ (shouldEnforceStaffDomain env = false ->
      fst (validateStaffEmail env email w) = Return None)
  /\ (forall d, shouldEnforceStaffDomain env = true ->
        env !! "VITE_STAFF_EMAIL_DOMAIN" = Some d ->
        (fst (validateStaffEmail env email w) = Return None
         <-> endsWith (trim (toLowerCase email)) ("@" ++ toLowerCase d) = true)).
Proof.
  split; [| split].
  - destruct (shouldEnforceStaffDomain env) eqn:He.
    + apply shouldEnforceStaffDomain_true in He as He'.
      destruct He' as [_ (d & Hd & _)].
      now rewrite (validateStaffEmail_enforced env email d w He Hd).
    + unfold validateStaffEmail. now rewrite He.
  - intros He. unfold validateStaffEmail. now rewrite He.
  - intros d He Hd. rewrite (validateStaffEmail_enforced env email d w He Hd). simpl.
    destruct (endsWith _ _); split; intros H; try reflexivity; discriminate H.
Qed.

(** X4. [validateStaffEmail] gives an address and its normal form
    (lower-cased, trimmed) the same verdict. *)
Theorem validateStaffEmail_ignores_case_and_space (env : Env) (email : string) (w : World) :
  validateStaffEmail env (trim (toLowerCase email)) w = validateStaffEmail env email w.
Proof.
  destruct (shouldEnforceStaffDomain env) eqn:He.
  - apply shouldEnforceStaffDomain_true in He as He'.
    destruct He' as [_ (d & Hd & _)].
    rewrite !(validateStaffEmail_enforced env _ d w He Hd). now rewrite normalize_idem.
  - unfold validateStaffEmail. now rewrite He.
Qed.

Lemma logAction_returns (w : World) (action : string) (details : option string) :
  (forall e, transport w <> rejects e) ->
  fst (Audit.logAction action details w) = Return tt
  /\ transport (snd (Audit.logAction action details w)) = transport w.
Proof.
  intros Ht. run_monad. destruct (transport w) as [| e | e] eqn:E; simpl.
  - destruct (Schema.log_action _ _ _ _); simpl; now rewrite ?E.
  - now rewrite E.
  - now destruct (Ht e).
Qed.

(** X5. [sendStaffMagicLink] compares the lower-cased address with the
    configured domain as it is written. With enforcement on and a
    configured domain that holds an upper-case letter it therefore refuses
    every address, whatever the sign-in service would answer. *)
Theorem sendStaffMagicLink_uppercase_domain_refuses_all
    (signInWithOtp : string -> OtpOutcome) (env : Env) (email d : string) (w : World) :
  isFeatureEnabled env ENABLE_MAGIC_LINK_AUTH = true ->
  shouldEnforceStaffDomain env = true ->
  env !! "VITE_STAFF_EMAIL_DOMAIN" = Some d ->
  has_upper d = true ->
  (forall e, transport w <> rejects e) ->
  fst (sendStaffMagicLink signInWithOtp env email w)
  = Return {| success := false;
              error := Some ("Staff must use their @" ++ d ++ " university email address") |}.
Proof.
  intros Hflag He Hd Hup Ht.
  apply shouldEnforceStaffDomain_true in He as He'.
  destruct He' as [_ (d' & E & Hne)]. rewrite Hd in E. injection E as <-.
  unfold sendStaffMagicLink, getConfiguredStaffDomain, staffEmailDomain.
  rewrite Hflag, He, Hd. simpl. rewrite (bool_decide_eq_false_2 _ Hne). simpl.
  rewrite endsWith_normalized_upper by (simpl; exact Hup). simpl.
  destruct (logAction_returns w "STAFF_DOMAIN_FAIL"
              (Some ("Invalid domain attempted: " ++ email)) Ht) as [Hr _].
  unfold mbind, App_bind at 1.
  destruct (Audit.logAction _ _ w) as [c w']. simpl in Hr. subst c. reflexivity.
Qed.

Lemma sendStaffMagicLink_uppercase_domain_refuses_all_witness :
  fst (sendStaffMagicLink (fun _ => otp_sent) mixed_case_domain_env
         "jane@chresouniversity.edu.zm" (sample_world Schema.BaseSchema None online))
  = Return {| success := false;
              error := Some ("Staff must use their @" ++ "ChresoUniversity.edu.zm"
                             ++ " university email address") |}.
Proof.
  apply (sendStaffMagicLink_uppercase_domain_refuses_all (fun _ => otp_sent)
           mixed_case_domain_env "jane@chresouniversity.edu.zm" "ChresoUniversity.edu.zm").
  - reflexivity.
  - reflexivity.
  - reflexivity.
  - reflexivity.
  - discriminate.
Defined.

(** The other check accepts the same address under the same environment. *)
Example validateStaffEmail_accepts_mixed_case_domain :
  fst (validateStaffEmail mixed_case_domain_env "jane@chresouniversity.edu.zm"
         (sample_world Schema.BaseSchema None online)) = Return None.
Proof. vm_compute. reflexivity. Qed.

Lemma validateStaffEmail_returns (env : Env) (email : string) (w : World) :
  exists r, validateStaffEmail env email w = (Return r, w).
Proof.
  destruct (shouldEnforceStaffDomain env) eqn:He.
  - apply shouldEnforceStaffDomain_true in He as He'.
    destruct He' as [_ (d & Hd & _)].
    rewrite (validateStaffEmail_enforced env email d w He Hd). eauto.
  - unfold validateStaffEmail. rewrite He. simpl. eexists. reflexivity.
Qed.

(** X6. [sendMagicLink] of [authV2.ts] always returns a result: whatever
    the flags, the address and the answer of the sign-in service (a
    rejection included) it never ends exceptionally, issues no audit request
    and leaves the database as it was. *)
Theorem sendMagicLink_always_returns (signInWithOtp : string -> OtpOutcome) (env : Env)
    (email : string) (isStaff : bool) (w : World) :
  exists r,
    fst (sendMagicLink signInWithOtp env email isStaff w) = Return r
    /\ rpc_calls (snd (sendMagicLink signInWithOtp env email isStaff w)) = rpc_calls w
    /\ db (snd (sendMagicLink signInWithOtp env email isStaff w)) = db w.
Proof.
  unfold sendMagicLink.
  destruct (isFeatureEnabled env ENABLE_MAGIC_LINK_AUTH); simpl; [| eauto].
  assert (Hv : exists r, (if isStaff then validateStaffEmail env email else mret None) w
                         = (Return r, w)).
  { destruct isStaff; [apply validateStaffEmail_returns | eexists; reflexivity]. }
  destruct Hv as [r Hr]. cbv [mbind App_bind]. rewrite !Hr.
  destruct r as [e |]; [eexists; repeat split; reflexivity |].
  run_monad. destruct (signInWithOtp (toLowerCase (trim email))); simpl; eauto.
Qed.

(** X7. [sendStaffMagicLink] awaits [logAction] on every path. With the
    magic-link flag on, a rejecting audit append therefore makes it end
    exceptionally for every address and every answer of the sign-in
    service, a successful send included, and the error it carries is the
    sink's. *)
Theorem sendStaffMagicLink_rejects_with_the_audit_sink
    (signInWithOtp : string -> OtpOutcome) (env : Env) (email : string) (w : World)
    (e : JsError) :
  isFeatureEnabled env ENABLE_MAGIC_LINK_AUTH = true ->
  transport w = rejects e ->
  fst (sendStaffMagicLink signInWithOtp env email w) = Throw e.
Proof.
  intros Hflag Ht. unfold sendStaffMagicLink. rewrite Hflag. simpl.
  destruct (shouldEnforceStaffDomain env && _); run_monad; rewrite ?Ht; simpl.
  - reflexivity.
  - destruct (signInWithOtp (trim (toLowerCase email))) as [| m | e'];
      simpl; rewrite ?Ht; simpl; rewrite ?Ht; reflexivity.
Qed.

Lemma sendStaffMagicLink_rejects_with_the_audit_sink_witness :
  fst (sendStaffMagicLink (fun _ => otp_sent) mixed_case_domain_env
         "jane@chresouniversity.edu.zm"
         (sample_world Schema.BaseSchema None (rejects {| message := "Failed to fetch" |})))
  = Throw {| message := "Failed to fetch" |}.
Proof.
  apply sendStaffMagicLink_rejects_with_the_audit_sink.
  - reflexivity.
  - reflexivity.
Defined.

End IdentityFacts.

(** ** CSV export *)

Module CsvFacts.

Import Text CsvExport.

#[local] Arguments String.append !_ _ / : simpl nomatch.

Lemma append_assoc (a b c : string) : (a ++ b) ++ c = a ++ (b ++ c).
Proof. induction a as [| d a IH]; simpl; [reflexivity | now f_equal]. Qed.

Lemma count_char_app (c : ascii) (a b : string) :
  count_char c (a ++ b) = count_char c a + count_char c b.
Proof. induction a as [| d a IH]; simpl; [reflexivity |]. rewrite IH. lia. Qed.

Lemma str_includes_char (s : string) (c : ascii) :
  str_includes s (String c EmptyString) = false <-> count_char c s = 0.
Proof.
  induction s as [| d s IH]; simpl; [tauto |].
  destruct (ascii_dec c d) as [<- | N]; simpl.
  - rewrite bool_decide_eq_true_2 by reflexivity. simpl.
    replace (String.prefix EmptyString s) with true by (now destruct s).
    simpl. split; [discriminate | lia].
  - rewrite bool_decide_eq_false_2 by congruence.
    destruct s; simpl in *; exact IH.
Qed.

(** A text is written verbatim exactly when it holds no comma, no double
    quote and no newline. *)
Lemma needs_quoting_false (s : string) :
  needs_quoting s = false
  <-> count_char comma s = 0 /\ count_char dquote s = 0 /\ count_char newline s = 0.
Proof.
  unfold needs_quoting. rewrite !orb_false_iff, !str_includes_char. tauto.
Qed.

Lemma escape_field_text (v : Value) :
  escapeCSVValue v = escapeCSVValue (v_string (field_text v)).
Proof. destruct v as [| | s | []]; reflexivity. Qed.

Lemma count_dquote_double (s : string) :
  count_char dquote (double_quotes s) = 2 * count_char dquote s.
Proof.
  induction s as [| c s IH]; simpl; [reflexivity |].
  destruct (bool_decide (c = dquote)) eqn:E; simpl.
  - rewrite IH. lia.
  - rewrite E, IH. lia.
Qed.

Lemma count_other_double (c : ascii) (s : string) :
  c <> dquote -> count_char c (double_quotes s) = count_char c s.
Proof.
  intros Hc. induction s as [| d s IH]; simpl; [reflexivity |].
  destruct (bool_decide (d = dquote)) eqn:E; simpl.
  - apply bool_decide_eq_true in E. subst d.
    rewrite !(bool_decide_eq_false_2 (dquote = c)) by congruence. simpl. exact IH.
  - now rewrite IH.
Qed.

(** X8. Every exported field has balanced quotes, and a field that holds
    a comma or a newline is a quoted one: separators never appear in a
    field written verbatim. *)
Theorem escapeCSVValue_well_formed (value : Value) :
  Nat.even (count_char dquote (escapeCSVValue value)) = true
  /\ (count_char comma (escapeCSVValue value) + count_char newline (escapeCSVValue value) <> 0 ->
      exists body, escapeCSVValue value = String dquote (body ++ String dquote EmptyString)).
Proof.
  rewrite escape_field_text. generalize (field_text value). intros s.
  unfold escapeCSVValue. simpl. destruct (needs_quoting s) eqn:E.
  - split.
    + simpl count_char. rewrite count_char_app, count_dquote_double.
      assert (H1 : count_char dquote (String dquote EmptyString) = 1) by reflexivity.
      rewrite H1.
      replace (S (2 * count_char dquote s + 1)) with (2 * (1 + count_char dquote s)) by lia.
      rewrite Nat.even_mul. reflexivity.
    + intros _. eexists. reflexivity.
  - apply needs_quoting_false in E as (E1 & E2 & E3). split.
    + now rewrite E2.
    + rewrite E1, E3. intros H. now destruct H.
Qed.

Lemma verbatim_split (a b r1 r2 : string) :
  count_char comma a = 0 -> count_char comma b = 0 ->
  row_rest r1 -> row_rest r2 ->
  a ++ r1 = b ++ r2 -> a = b /\ r1 = r2.
Proof.
  revert b. induction a as [| c a IH]; intros b Ha Hb H1 H2 E.
  - destruct b as [| d b]; simpl in *; [auto |].
    destruct H1 as [-> | [r' ->]]; [discriminate E |].
    injection E as <- _. rewrite bool_decide_eq_true_2 in Hb by reflexivity. discriminate Hb.
  - destruct b as [| d b]; simpl in *.
    + destruct H2 as [-> | [r' ->]]; [discriminate E |].
      injection E as -> _. rewrite bool_decide_eq_true_2 in Ha by reflexivity. discriminate Ha.
    + injection E as -> E.
      destruct (bool_decide (d = comma)); [discriminate Ha |]. simpl in Ha, Hb.
      destruct (IH b Ha Hb H1 H2 E) as [-> ->]. auto.
Qed.

Lemma row_rest_not_quote (r t : string) : row_rest r -> r <> String dquote t.
Proof. intros [-> | [r' ->]]; discriminate. Qed.

(** The first characters of the two sides differ: one is a quote and the
    other is known not to be. *)
Ltac quote_clash E Hn :=
  let Hq := fresh "Hq" in
  injection E as Hq _; apply bool_decide_eq_false in Hn; exfalso; apply Hn;
  first [exact Hq | symmetry; exact Hq].

Lemma quoted_split (a b r1 r2 : string) :
  row_rest r1 -> row_rest r2 ->
  double_quotes a ++ String dquote r1 = double_quotes b ++ String dquote r2 ->
  a = b /\ r1 = r2.
Proof.
  revert b. induction a as [| c a IH]; intros b H1 H2 E.
  - destruct b as [| d b]; simpl in E.
    + injection E as ->. auto.
    + destruct (bool_decide (d = dquote)) eqn:Ed; simpl in E.
      * injection E as E. now apply row_rest_not_quote in E.
      * quote_clash E Ed.
  - simpl in E. destruct (bool_decide (c = dquote)) eqn:Ec; simpl in E.
    + apply bool_decide_eq_true in Ec. subst c.
      destruct b as [| d b]; simpl in E.
      * injection E as E. symmetry in E. now apply row_rest_not_quote in E.
      * destruct (bool_decide (d = dquote)) eqn:Ed; simpl in E.
        -- apply bool_decide_eq_true in Ed. subst d. injection E as E.
           destruct (IH b H1 H2 E) as [-> ->]. auto.
        -- quote_clash E Ed.
    + destruct b as [| d b]; simpl in E.
      * quote_clash E Ec.
      * destruct (bool_decide (d = dquote)) eqn:Ed; simpl in E.
        -- quote_clash E Ec.
        -- injection E as -> E. destruct (IH b H1 H2 E) as [-> ->]. auto.
Qed.

(** A field followed by the rest of its row can be read back in one way
    only. *)
Lemma field_delimited (a b r1 r2 : string) :
  row_rest r1 -> row_rest r2 ->
  escapeCSVValue (v_string a) ++ r1 = escapeCSVValue (v_string b) ++ r2 ->
  a = b /\ r1 = r2.
Proof.
  intros H1 H2. unfold escapeCSVValue. simpl.
  destruct (needs_quoting a) eqn:Ea, (needs_quoting b) eqn:Eb; simpl; intros E.
  - injection E as E. rewrite !append_assoc in E. simpl in E. now apply quoted_split.
  - apply needs_quoting_false in Eb as (_ & Eb & _).
    destruct b as [| d b]; simpl in E.
    + symmetry in E. now apply row_rest_not_quote in E.
    + injection E as <- _. simpl in Eb.
      try rewrite bool_decide_eq_true_2 in Eb by reflexivity. discriminate Eb.
  - apply needs_quoting_false in Ea as (_ & Ea & _).
    destruct a as [| c a]; simpl in E.
    + now apply row_rest_not_quote in E.
    + injection E as -> _. simpl in Ea.
      try rewrite bool_decide_eq_true_2 in Ea by reflexivity. discriminate Ea.
  - apply needs_quoting_false in Ea as (Ea & _). apply needs_quoting_false in Eb as (Eb & _).
    now apply verbatim_split.
Qed.

Lemma join_cons (sep x : string) (l : list string) :
  join sep (x :: l) = x ++ match l with [] => EmptyString | _ => sep ++ join sep l end.
Proof. destruct l; simpl; [| reflexivity]. induction x; simpl; congruence. Qed.

Lemma row_injective (vs ws : list string) :
  length vs = length ws ->
  join (String comma EmptyString) (List.map (fun s => escapeCSVValue (v_string s)) vs)
  = join (String comma EmptyString) (List.map (fun s => escapeCSVValue (v_string s)) ws) ->
  vs = ws.
Proof.
  revert ws. induction vs as [| v vs IH]; intros [| w ws] Hlen E; try discriminate Hlen.
  - reflexivity.
  - simpl List.map in E. rewrite !join_cons in E.
    injection Hlen as Hlen.
    apply field_delimited in E as [-> E].
    + f_equal. apply IH; [exact Hlen |].
      destruct vs, ws; try discriminate Hlen; [reflexivity |].
      simpl List.map in E. now injection E.
    + destruct (List.map _ vs); [now left | right; eexists; reflexivity].
    + destruct (List.map _ ws); [now left | right; eexists; reflexivity].
Qed.

(** X9. For a fixed list of headers, the line of a record determines the
    text of each of its fields: two records with the same line agree, header
    by header, on the text exported. Commas, quotes and newlines inside
    values never make two different records collide. *)
Theorem dataRow_determines_fields (headers : list string) (item1 item2 : string -> Value) :
  dataRow headers item1 = dataRow headers item2 ->
  Forall (fun header => field_text (item1 header) = field_text (item2 header)) headers.
Proof.
  intros E. unfold dataRow in E.
  assert (H : List.map (fun h => field_text (item1 h)) headers
              = List.map (fun h => field_text (item2 h)) headers).
  { apply row_injective; [now rewrite !length_map |].
    rewrite !List.map_map.
    rewrite (List.map_ext _ (fun h => escapeCSVValue (item1 h)))
      by (intros; symmetry; apply escape_field_text).
    rewrite (List.map_ext (fun h => escapeCSVValue (v_string (field_text (item2 h))))
               (fun h => escapeCSVValue (item2 h)))
      by (intros; symmetry; apply escape_field_text).
    exact E. }
  clear E. induction headers as [| h hs IH]; [constructor |].
  simpl in H. injection H as H1 H2. constructor; auto.
Qed.

(** The theorem at work: a null value and an empty string give the same
    line, and the same exported text. *)
Lemma dataRow_determines_fields_witness :
  Forall (fun header => field_text ((fun _ => v_null) header)
                        = field_text ((fun _ => v_string EmptyString) header))
         ["email"; "name"].
Proof.
  apply (dataRow_determines_fields ["email"; "name"] (fun _ => v_null)
           (fun _ => v_string EmptyString)).
  reflexivity.
Defined.

Lemma encodeURI_app (a b : string) : encodeURI (a ++ b) = encodeURI a ++ encodeURI b.
Proof.
  induction a as [| c a IH]; simpl; [reflexivity |].
  destruct (uri_unescaped c); simpl; now rewrite IH.
Qed.

Lemma prefix_app (a b : string) : String.prefix a (a ++ b) = true.
Proof.
  induction a as [| c a IH]; simpl; [now destruct b |].
  destruct (ascii_dec c c); [exact IH | congruence].
Qed.

(** X10. [exportUsersToCSV] downloads nothing for an empty list; for any
    other list it clicks one link named [university_ids.csv] whose address
    starts with the data-URI header followed by the header line
    [id_number,name,role,email,is_active] and a percent-encoded newline. *)
Theorem exportUsersToCSV_header (users : list Schema.User) :
  exportUsersToCSV [] = None
  /\ (users <> [] ->
      exists d, exportUsersToCSV users = Some d
                /\ download d = "university_ids.csv"
                /\ String.prefix
                     "data:text/csv;charset=utf-8,id_number,name,role,email,is_active%0A"
                     (href d) = true).
Proof.
  split; [reflexivity |]. intros Hne.
  destruct users as [| u us]; [contradiction |].
  eexists. split; [reflexivity |]. split; [reflexivity |].
  cbv [href csvContent]. cbv zeta.
  change (join (String comma EmptyString) ["id_number"; "name"; "role"; "email"; "is_active"])
    with "id_number,name,role,email,is_active".
  rewrite <- !append_assoc, encodeURI_app.
  change (encodeURI (("data:text/csv;charset=utf-8," ++ "id_number,name,role,email,is_active")
                     ++ String newline EmptyString))
    with "data:text/csv;charset=utf-8,id_number,name,role,email,is_active%0A".
  apply prefix_app.
Qed.

End CsvFacts.

(** ** The dashboard's search filter *)

Module DashboardFacts.

Import Text TextFacts Dashboard.

Section Filter.

Context {T : Type} (title : T -> string) (description : T -> option string).

Lemma blank_lower (s : string) :
  bool_decide (trim (toLowerCase s) = EmptyString) = bool_decide (trim s = EmptyString).
Proof.
  apply bool_decide_ext. rewrite <- toLowerCase_trim. apply toLowerCase_empty.
Qed.

(** X11. The search does not depend on the case of the search term: a
    term and its lower-cased form select the same tutorials, in the same
    order; and a term made of white space only selects every tutorial. *)
Theorem filteredTutorials_ignores_case (tutorials : list T) (searchTerm : string) :
  filteredTutorials title description tutorials (toLowerCase searchTerm)
  = filteredTutorials title description tutorials searchTerm
  /\ (trim searchTerm = EmptyString ->
      filteredTutorials title description tutorials searchTerm = tutorials).
Proof.
  unfold filteredTutorials. rewrite blank_lower, toLowerCase_idem. split; [reflexivity |].
  intros H. now rewrite (bool_decide_eq_true_2 _ H).
Qed.

(** X12. The search selects exactly the tutorials whose lower-cased title
    or description contains the lower-cased term, so it never invents a
    tutorial, and narrowing one search by another is the same as running
    them in the other order. *)
Theorem filteredTutorials_selects (tutorials : list T) (s1 s2 : string) (t : T) :
  (trim s1 <> EmptyString ->
   (In t (filteredTutorials title description tutorials s1)
    <-> In t tutorials /\ matches title description (toLowerCase s1) t = true))
  /\ filteredTutorials title description (filteredTutorials title description tutorials s1) s2
     = filteredTutorials title description (filteredTutorials title description tutorials s2) s1.
Proof.
  split.
  - intros H. unfold filteredTutorials. rewrite (bool_decide_eq_false_2 _ H).
    apply filter_In.
  - unfold filteredTutorials.
    destruct (bool_decide (trim s1 = EmptyString)), (bool_decide (trim s2 = EmptyString));
      try reflexivity.
    induction tutorials as [| a l IH]; simpl; [reflexivity |].
    destruct (matches title description (toLowerCase s1) a) eqn:E1,
             (matches title description (toLowerCase s2) a) eqn:E2;
      simpl; rewrite ?E1, ?E2, IH; reflexivity.
Qed.

End Filter.

End DashboardFacts.

(** ** Row-level security and the tables *)

Module SchemaFacts.

Import Schema Spec Samples.

#[local] Arguments uid_has_role : simpl never.

(** X13. Without a session nothing is allowed: for a request that carries
    no uid, every command on every row of the three tables is denied, under
    either schema version. *)
Theorem anonymous_is_denied_everything (db : Database) (c : Command) (r : Row) :
  authorize db None c r = false.
Proof.
  destruct r as [u | t | a].
  - apply PolicyFacts.authorize_users.
  - apply PolicyFacts.authorize_tutorials.
  - rewrite PolicyFacts.authorize_audit_logs.
    rewrite (bool_decide_eq_false_2 (None <> None)) by (intros H; now apply H).
    apply andb_false_r.
Qed.

(** X14. The audit log is append-only through the API: no caller may
    update or delete one of its rows; a caller may append exactly when it
    carries a uid, with or without a profile; and whoever may read a row
    holds role ADMIN or SUDO in [public.users]. *)
Theorem audit_log_is_append_only (db : Database) (uid : option string) (a : AuditLog) :
  authorize db uid UPDATE (audit_logs_row a) = false
  /\ authorize db uid DELETE (audit_logs_row a) = false
  /\ (authorize db uid INSERT (audit_logs_row a) = true <-> uid <> None)
  /\ (authorize db uid SELECT (audit_logs_row a) = true ->
      uid_has_role db uid ADMIN = true \/ uid_has_role db uid SUDO_ROLE = true).
Proof.
  rewrite !PolicyFacts.authorize_audit_logs. simpl.
  split; [reflexivity |]. split; [reflexivity |]. split.
  - apply bool_decide_eq_true.
  - discriminate.
Qed.

(** X15. Row-level security as the schema writes it grants one thing
    only. For every caller, with or without a profile and whatever its
    role, and under either schema version, a command is granted on a row
    exactly when it appends to the audit log and the caller carries a uid.
    Every statement on [public.users] or [public.tutorials], and every
    statement that needs the select policies of [public.audit_logs], ends
    in 42P17 at policy expansion, before any row is looked at; so every
    insert into [public.users] and every read of a profile is answered with
    that error. *)
Theorem row_security_grants_only_audit_appends (db : Database) (uid : option string)
    (c : Command) (reads : bool) (r : Row) :
  (authorize db uid c r = true
   <-> c = INSERT /\ uid <> None /\ exists a, r = audit_logs_row a)
  /\ (table_of r <> audit_logs_table \/ c = SELECT \/ reads = true ->
      policy_check db uid c reads r = inl (infinite_recursion "users"))
  /\ (forall u, insert_user db uid u = inl (infinite_recursion "users"))
  /\ (forall userId, select_user_single db uid userId = inl (infinite_recursion "users")).
Proof.
  split; [| split; [| split]].
  - destruct r as [u | t | a].
    + rewrite PolicyFacts.authorize_users. split; [discriminate |].
      intros (_ & _ & a & E). discriminate E.
    + rewrite PolicyFacts.authorize_tutorials. split; [discriminate |].
      intros (_ & _ & a & E). discriminate E.
    + rewrite PolicyFacts.authorize_audit_logs, andb_true_iff, !bool_decide_eq_true.
      split.
      * intros [Hc Hu]. split; [exact Hc |]. split; [exact Hu |]. now exists a.
      * intros (Hc & Hu & _). now split.
  - apply PolicyFacts.policy_check_recursion.
  - intros u. apply PolicyFacts.insert_user_recursion.
  - intros userId. apply PolicyFacts.select_user_single_recursion.
Qed.

(** X17. [public.log_action] only ever appends: when it succeeds the old
    log is a prefix of the new one, exactly one row is added, that row
    carries the caller's uid, the action and the details, and the users
    table is untouched. The recorded role is the caller's own role; the
    fallback [UNKNOWN] is recorded only for a caller without uid, because a
    caller with a uid and no profile is refused by the foreign key. *)
Theorem log_action_appends_one_row (db : Database) (uid : option string)
    (p_action : string) (p_details : option string) :
  (forall db', log_action db uid p_action p_details = inr db' ->
     exists row,
       audit_logs db' = (audit_logs db ++ [row])%list
       /\ user_id row = uid /\ action row = p_action /\ details row = p_details
       /\ users db' = users db
       /\ match uid with
          | Some me => exists u, users db !! me = Some u /\ user_role row = role u
          | None => user_role row = "UNKNOWN"
          end)
  /\ (forall e, log_action db uid p_action p_details = inl e ->
        exists me, uid = Some me /\ users db !! me = None).
Proof.
  unfold log_action. destruct uid as [me |].
  - destruct (users db !! me) as [u |] eqn:Hu; simpl.
    + rewrite ?bool_decide_eq_true_2 by eauto. split.
      * intros db' E. injection E as <-. eexists. simpl.
        repeat split; try reflexivity. eauto.
      * intros e E. discriminate E.
    + rewrite ?bool_decide_eq_false_2 by (intros [x Hx]; discriminate Hx). split.
      * intros db' E. discriminate E.
      * intros e _. eauto.
  - split.
    + intros db' E. injection E as <-. eexists. simpl. repeat split; reflexivity.
    + intros e E. discriminate E.
Qed.

End SchemaFacts.

(** ** Sign-out, sign-in, sign-up and the auth-state listener *)

Module ClientFacts.

Import Schema AuthProvider AuthHooks Guards Spec Samples.

#[local] Arguments Schema.log_action : simpl never.
#[local] Arguments Schema.insert_user : simpl never.
#[local] Arguments Schema.select_user_single : simpl never.

(** Unfold the client functions and the monadic plumbing. *)
Ltac run_client :=
  cbv [signOut auth_signOut signIn signUp onAuthStateChange signInWithPassword auth_signUp
       fetchUserProfile setIsLoading setSession setUser users_insert
       Audit.logAction Audit.rpc_log_action
       mbind App_bind mret App_ret modify get_world throw try_catch console_log
       Date_toISOString];
  simpl.

Lemma log_action_users (db db' : Database) (uid : option string) (a : string)
    (d : option string) :
  log_action db uid a d = inr db' -> users db' = users db.
Proof.
  unfold log_action. intros H. destruct uid as [me |].
  - destruct (bool_decide (is_Some (users db !! me))); [| discriminate H].
    now injection H as <-.
  - now injection H as <-.
Qed.

(** X19. When the audit append does not reject, [signOut] returns
    normally and leaves an anonymous provider: no session, no profile, no
    uid, so no route guard renders its children afterwards. It issues the
    LOGOUT audit request exactly when a profile was loaded. *)
Theorem signOut_leaves_anonymous (w : World) :
  (forall e, transport w <> rejects e) ->
  fst (signOut w) = Return tt
  /\ session (auth (snd (signOut w))) = None
  /\ user (auth (snd (signOut w))) = None
  /\ uid (snd (signOut w)) = None
  /\ rpc_calls (snd (signOut w))
     = (rpc_calls w
        ++ match user (auth w) with
           | Some u => [("LOGOUT",
                         Some ("User logged out: " ++ print_nullable (Schema.email u))%string)]
           | None => []
           end)%list
  /\ (forall location allowedRoles,
        ProtectedRoute (useAuth (auth (snd (signOut w)))) location allowedRoles <> children).
Proof.
  intros Ht.
  assert (Hg : forall a location allowedRoles,
             session a = None ->
             ProtectedRoute (useAuth a) location allowedRoles <> children).
  { intros a location allowedRoles Hs. unfold ProtectedRoute, useAuth. simpl. rewrite Hs.
    destruct (isLoading a) eqn:E; simpl; discriminate. }
  run_client. destruct (user (auth w)) as [u |]; simpl.
  - destruct (transport w) as [| e | e] eqn:E; simpl.
    + destruct (Schema.log_action _ _ _ _); simpl;
        repeat split; try reflexivity; intros; now apply Hg.
    + repeat split; try reflexivity; intros; now apply Hg.
    + now destruct (Ht e).
  - rewrite app_nil_r. repeat split; try reflexivity; intros; now apply Hg.
Qed.

Lemma signOut_leaves_anonymous_witness :
  let w := SignedIn.signed_in BaseSchema staff_profile online in
  fst (signOut w) = Return tt
  /\ session (auth (snd (signOut w))) = None
  /\ user (auth (snd (signOut w))) = None
  /\ uid (snd (signOut w)) = None
  /\ rpc_calls (snd (signOut w))
     = (rpc_calls w
        ++ match user (auth w) with
           | Some u => [("LOGOUT",
                         Some ("User logged out: " ++ print_nullable (Schema.email u))%string)]
           | None => []
           end)%list
  /\ (forall location allowedRoles,
        ProtectedRoute (useAuth (auth (snd (signOut w)))) location allowedRoles <> children).
Proof.
  apply (signOut_leaves_anonymous (SignedIn.signed_in BaseSchema staff_profile online)).
  discriminate.
Defined.

(** X20. [signOut] writes the audit entry first. When a profile is loaded
    and the audit append rejects, [signOut] ends exceptionally before it
    reaches the auth service: session, profile and uid are all left in
    place, so the user stays signed in. *)
Theorem signOut_blocked_by_the_audit_sink (w : World) (u : Schema.User) (e : JsError) :
  user (auth w) = Some u ->
  transport w = rejects e ->
  fst (signOut w) = Throw e
  /\ auth (snd (signOut w)) = auth w
  /\ uid (snd (signOut w)) = uid w.
Proof.
  intros Hu Ht. run_client. rewrite Hu. simpl. rewrite Ht. simpl.
  repeat split; reflexivity.
Qed.

Lemma signOut_blocked_by_the_audit_sink_witness :
  let w := SignedIn.signed_in BaseSchema staff_profile
             (rejects {| message := "Failed to fetch" |}) in
  fst (signOut w) = Throw {| message := "Failed to fetch" |}
  /\ auth (snd (signOut w)) = auth w
  /\ uid (snd (signOut w)) = uid w.
Proof.
  apply (signOut_blocked_by_the_audit_sink _ staff_profile); reflexivity.
Defined.

(** X21. [signIn] itself never sets the session or the profile of the
    provider and never touches [public.users]: whatever the service answers
    and however the audit append ends, those three are as they were before
    the call. Only the auth-state listener moves the provider. *)
Theorem signIn_leaves_session_to_the_listener (w : World) (email password : string) :
  session (auth (snd (signIn email password w))) = session (auth w)
  /\ user (auth (snd (signIn email password w))) = user (auth w)
  /\ users (db (snd (signIn email password w))) = users (db w).
Proof.
  run_client.
  destruct (signInWithPassword_response (auth_service w) email password) as [e | s]; simpl.
  - repeat split; reflexivity.
  - destruct (transport w); simpl; try (repeat split; reflexivity).
    destruct (Schema.log_action _ _ _ _) as [e | db'] eqn:E; simpl;
      repeat split; try reflexivity.
    now apply log_action_users in E.
Qed.

(** X22. [signUp] never creates a profile. Whatever the auth service
    answers, whoever is signed in and whatever the tables hold, the database
    is unchanged after the call and the call never reports success. When
    the auth service returns a user, [signUp] sends one insert to
    [public.users], for the id the auth service returned and with the role
    it was given; with the backend reachable the store answers it 42P17,
    which is what [signUp] reports. *)
Theorem signUp_never_creates_a_profile (w : World) (email password : string)
    (userData : UserData) :
  db (snd (signUp email password userData w)) = db w
  /\ fst (signUp email password userData w) <> Return None
  /\ (forall d userId,
        signUp_response (auth_service w) email password = inr d ->
        signUp_user d = Some userId ->
        users_inserts (snd (signUp email password userData w))
        = (users_inserts w ++ [userInsert (version (db w)) userId email userData])%list
        /\ Schema.id (userInsert (version (db w)) userId email userData) = userId
        /\ Schema.role (userInsert (version (db w)) userId email userData) = ud_role userData
        /\ (transport w = online ->
            fst (signUp email password userData w)
            = Return (Some (profile_error (infinite_recursion "users")))))
  /\ (forall d,
        signUp_response (auth_service w) email password = inr d ->
        signUp_user d = None ->
        users_inserts (snd (signUp email password userData w)) = users_inserts w)
  /\ (forall e,
        signUp_response (auth_service w) email password = inl e ->
        users_inserts (snd (signUp email password userData w)) = users_inserts w).
Proof.
  run_client.
  destruct (signUp_response (auth_service w) email password) as [e | d]; simpl.
  { split; [reflexivity |]. split; [discriminate |].
    split; [intros; discriminate |]. split; [intros; discriminate |].
    intros; reflexivity. }
  destruct d as [[userId |] os]; simpl.
  2: { destruct os; simpl; (split; [reflexivity |]); (split; [discriminate |]);
         (split; [intros d u Hd Hu; injection Hd as <-; discriminate Hu |]);
         (split; [intros; reflexivity |]); intros; discriminate. }
  destruct os as [s |]; simpl.
  all: destruct (transport w) eqn:Ht; simpl.
  all: rewrite ?PolicyFacts.insert_user_recursion; simpl.
  all: split; [reflexivity |]; split; [discriminate |].
  all: split;
    [| split; [intros d Hd Hu; injection Hd as <-; discriminate Hu
              | intros e' He; discriminate He]].
  all: intros d userId' Hd Hu; injection Hd as <-; simpl in Hu; injection Hu as <-.
  all: repeat split; try reflexivity; discriminate.
Qed.

(** X24. With the store as the schema writes it, the auth-state listener
    never authenticates anyone. Whenever the profile request does not
    reject, and whether or not [public.users] holds a row for the session's
    user, the listener ends with the session it received, no profile and
    loading over, so [isAuthenticated] is false; with the backend reachable
    the read was answered 42P17, and the error is printed. *)
Theorem listener_never_authenticates (w : World) (event : string) (s : Session) :
  (forall e, transport w <> rejects e) ->
  let w' := snd (onAuthStateChange event (Some s) w) in
  fst (onAuthStateChange event (Some s) w) = Return tt
  /\ session (auth w') = Some s
  /\ user (auth w') = None
  /\ isLoading (auth w') = false
  /\ ctx_isAuthenticated (useAuth (auth w')) = false
  /\ console w' = (console w ++ [console_error "Error fetching user profile:"])%list
  /\ (transport w = online ->
      select_user_single (db w) (uid w) (session_user_id s)
      = inl (infinite_recursion "users")).
Proof.
  intros Ht. cbv zeta. run_client.
  destruct (transport w) as [| e | e] eqn:E; simpl.
  - rewrite PolicyFacts.select_user_single_recursion. simpl.
    repeat split; reflexivity.
  - repeat split; try reflexivity. discriminate.
  - now destruct (Ht e).
Qed.

(** The listener run for [staff-1], who has a profile. *)
Lemma listener_never_authenticates_witness :
  let w := sample_world BaseSchema (Some "staff-1") online in
  let s := session_of "staff-1" in
  let w' := snd (onAuthStateChange "SIGNED_IN" (Some s) w) in
  fst (onAuthStateChange "SIGNED_IN" (Some s) w) = Return tt
  /\ session (auth w') = Some s
  /\ user (auth w') = None
  /\ isLoading (auth w') = false
  /\ ctx_isAuthenticated (useAuth (auth w')) = false
  /\ console w' = (console w ++ [console_error "Error fetching user profile:"])%list
  /\ (transport w = online ->
      select_user_single (db w) (uid w) (session_user_id s)
      = inl (infinite_recursion "users")).
Proof.
  apply (listener_never_authenticates (sample_world BaseSchema (Some "staff-1") online)
           "SIGNED_IN" (session_of "staff-1")).
  discriminate.
Defined.

End ClientFacts.

(** ** Deleting a user ([deleteUser]) *)

Module UsersApiFacts.

Import Schema AuthProvider UsersApi Spec Samples.

#[local] Arguments Schema.log_action : simpl never.
#[local] Arguments UsersApi.delete_user : simpl never.

Ltac run_delete :=
  cbv [deleteUser users_delete Audit.logAction Audit.rpc_log_action
       mbind App_bind mret App_ret modify get_world throw try_catch console_log];
  simpl.

Lemma delete_user_recursion (db0 : Database) (uid0 : option string) (userId : string) :
  delete_user db0 uid0 userId = inl (infinite_recursion "users").
Proof. unfold delete_user. now rewrite PolicyFacts.expansion_users. Qed.

(** X25. [deleteUser] never deletes. For every caller, an ADMIN
    included, and every id, the database is as before, no [DELETE_USER_ID]
    request is issued and the call never reports success; with the backend
    reachable the error it returns is the store's 42P17, and
    [Error deleting user:] is printed. *)
Theorem deleteUser_never_deletes (w : World) (userId idNumber : string) :
  db (snd (deleteUser userId idNumber w)) = db w
  /\ rpc_calls (snd (deleteUser userId idNumber w)) = rpc_calls w
  /\ fst (deleteUser userId idNumber w) <> Return None
  /\ (transport w = online ->
      fst (deleteUser userId idNumber w) = Return (Some (infinite_recursion "users"))
      /\ console (snd (deleteUser userId idNumber w))
         = (console w ++ [console_error "Error deleting user:"])%list).
Proof.
  run_delete. destruct (transport w) eqn:Ht; simpl.
  - rewrite delete_user_recursion. simpl.
    repeat split; try reflexivity; discriminate.
  - repeat split; try reflexivity; discriminate.
  - repeat split; try reflexivity; discriminate.
Qed.

(** An administrator deleting the student's profile on the sample
    database. *)
Example admin_delete_is_refused (v : SchemaVersion) :
  let w := sample_world v (Some "admin-1") online in
  deleteUser "student-1" "STD001" w
  = (Return (Some (infinite_recursion "users")),
     set_console [console_error "Error deleting user:"] w).
Proof. destruct v; vm_compute; reflexivity. Qed.

End UsersApiFacts.

(** ** The bounded wait and the unmount of the login page *)

Module LoginPageBoundFacts.

Import AuthProvider Guards LoginPage LoginPageInvariants LoginPageBound LoginPageUnmount Samples.

#[local] Arguments clear_login_timeout : simpl never.

Lemma callbacks_run (l : list Timer) (q : Page) :
  let q' := fold_left (fun q0 _ => login_timeout_callback q0) l q in
  time q' = time q /\ pending q' = pending q /\ loginTimeoutRef q' = loginTimeoutRef q
  /\ (l = [] -> st q' = st q)
  /\ (l <> [] -> isLoading (st q') = false /\ error (st q') = LOGIN_TIMEOUT_MESSAGE).
Proof.
  cbv zeta. revert q. induction l as [| t l IH]; intros q.
  - simpl. split; [reflexivity |]. split; [reflexivity |]. split; [reflexivity |].
    split; [reflexivity |]. intros Hl. now contradiction Hl.
  - simpl. destruct (IH (login_timeout_callback q)) as (H1 & H2 & H3 & H4 & H5).
    rewrite H1, H2, H3.
    split; [reflexivity |]. split; [reflexivity |]. split; [reflexivity |].
    split; [discriminate |]. intros _.
    destruct l as [| t' l']; [rewrite H4 by reflexivity; split; reflexivity |].
    apply H5. discriminate.
Qed.

Lemma advance_time (d : nat) (p : Page) : time (advance d p) = time p + d.
Proof.
  unfold advance.
  match goal with
  | |- time (fold_left _ ?l ?q) = _ => destruct (callbacks_run l q) as (H & _)
  end.
  rewrite H. reflexivity.
Qed.

Lemma run_time (evs : list Event) (p : Page) : time (run p evs) = time p + elapsed evs.
Proof.
  revert p. induction evs as [| ev evs IH]; intros p; [simpl; lia |].
  change (run p (ev :: evs)) with (run (step p ev) evs). rewrite IH.
  destruct ev as [ctx from | d]; simpl.
  - now rewrite LoginPageFacts.effects_time.
  - rewrite advance_time. lia.
Qed.

Lemma effects_bounded (D : nat) (ctx : AuthContextValue) (from : string) (p : Page) :
  bounded D p -> bounded D (effects ctx from p).
Proof.
  intros (H1 & H2 & H3).
  pose proof (LoginPageFacts.clear_login_timeout_pending D p H1) as Hclear.
  unfold bounded.
  LoginPageFacts.effect_cases; rewrite ?Hclear; refine (conj _ (conj _ _));
    first [ exact H1 | exact H2 | exact H3 | discriminate
          | intros t Ht; now apply elem_of_nil in Ht
          | intros H; now contradiction H ].
Qed.

Lemma advance_bounded (D d : nat) (p : Page) : bounded D p -> bounded D (advance d p).
Proof.
  intros (H1 & H2 & H3).
  destruct (decide (time p + d < D)) as [Hlt | Hge].
  - rewrite (LoginPageFacts.advance_before_due D)
      by (try assumption; intros t Ht; now apply H1).
    repeat split; simpl; auto; now apply H1.
  - unfold advance.
    rewrite (LoginPageFacts.filter_none (fun t => time p + d < due t))
      by (intros t Ht; destruct (H1 t Ht) as [-> _]; lia).
    rewrite (LoginPageFacts.filter_all (fun t => due t <= time p + d))
      by (intros t Ht; destruct (H1 t Ht) as [-> _]; lia).
    match goal with
    | |- bounded D (fold_left _ ?l ?q) =>
        destruct (callbacks_run l q) as (Ht & Hp & Hr & Hnil & Hcons)
    end.
    simpl in Hp. unfold bounded. rewrite Hp.
    split; [intros t Hin; now apply elem_of_nil in Hin |].
    split; [| intros H; now contradiction H].
    intros Hl Hnone. destruct (pending p) as [| t l] eqn:E.
    + rewrite Hnil in Hl by reflexivity. simpl in Hl. apply H2 in Hl. now apply Hl.
    + destruct Hcons as [Hf _]; [discriminate |]. rewrite Hf in Hl. discriminate Hl.
Qed.

Lemma run_bounded (D : nat) (evs : list Event) (p : Page) :
  bounded D p -> bounded D (run p evs).
Proof.
  revert p. induction evs as [| ev evs IH]; intros p Hp; [exact Hp |].
  simpl. apply IH. destruct ev; simpl; auto using effects_bounded, advance_bounded.
Qed.

Lemma handleLogin_bounded (p : Page) :
  pending p = [] ->
  bounded (time p + LOGIN_TIMEOUT_MS) (handleLogin_resume None (handleLogin_submit p)).
Proof.
  intros Hp. unfold handleLogin_resume, handleLogin_submit, arm_login_timeout, bounded. simpl.
  rewrite Hp. simpl.
  split; [| split; [discriminate | intros _; unfold LOGIN_TIMEOUT_MS; lia]].
  intros t Ht. apply list_elem_of_singleton in Ht. subst t. split; reflexivity.
Qed.

(** X28. The spinner never outlasts the bounded wait. After a submission
    accepted on a page with no timer pending the page is loading; once ten
    seconds have passed, whatever renders happened in between and in
    whatever order, the page is no longer loading and no timer is left. *)
Theorem loading_never_outlasts_the_timeout (p : Page) (evs : list Event) :
  pending p = [] ->
  LOGIN_TIMEOUT_MS <= elapsed evs ->
  let armed := handleLogin_resume None (handleLogin_submit p) in
  isLoading (st armed) = true
  /\ isLoading (st (run armed evs)) = false
  /\ pending (run armed evs) = [].
Proof.
  intros Hp Hel armed. split; [reflexivity |].
  pose proof (run_bounded _ evs _ (handleLogin_bounded p Hp)) as (H1 & H2 & H3).
  fold armed in H1, H2, H3.
  assert (Ht : time (run armed evs) = time p + elapsed evs) by now rewrite run_time.
  assert (Hnone : pending (run armed evs) = []).
  { destruct (pending (run armed evs)) as [| t l]; [reflexivity |].
    assert (time (run armed evs) < time p + LOGIN_TIMEOUT_MS) by (apply H3; discriminate).
    lia. }
  split; [| exact Hnone].
  destruct (isLoading (st (run armed evs))); [| reflexivity].
  exfalso. now apply H2.
Qed.

Lemma loading_never_outlasts_the_timeout_witness :
  let evs := [context_changed (verified_no_profile "ghost-1") "/dashboard";
              time_passed (4 * 1000);
              context_changed (authenticated_as staff_profile) "/dashboard";
              time_passed (6 * 1000)] in
  let armed := handleLogin_resume None (handleLogin_submit (initial_page 0)) in
  isLoading (st armed) = true
  /\ isLoading (st (run armed evs)) = false
  /\ pending (run armed evs) = [].
Proof.
  apply (loading_never_outlasts_the_timeout (initial_page 0)
           [context_changed (verified_no_profile "ghost-1") "/dashboard";
            time_passed (4 * 1000);
            context_changed (authenticated_as staff_profile) "/dashboard";
            time_passed (6 * 1000)]).
  - reflexivity.
  - unfold elapsed, LOGIN_TIMEOUT_MS. simpl fold_right. lia.
Defined.

(** X29. Leaving the page cancels the wait. However the page got where it
    is after a submission accepted with no timer pending, the cleanup run on
    unmount leaves no timer behind, so no passage of time sets the state of
    the unmounted component. *)
Theorem unmount_cancels_the_login_timeout (p : Page) (evs : list Event) :
  pending p = [] ->
  let left := unmount_cleanup (run (handleLogin_resume None (handleLogin_submit p)) evs) in
  pending left = [] /\ forall d, st (advance d left) = st left.
Proof.
  intros Hp left.
  pose proof (run_bounded _ evs _ (handleLogin_bounded p Hp)) as (H1 & _ & _).
  assert (Hnone : pending left = []).
  { unfold left, unmount_cleanup.
    destruct (loginTimeoutRef (run _ evs)) as [h |] eqn:E; simpl.
    - apply LoginPageFacts.filter_none. intros t Ht Hne. destruct (H1 t Ht) as [_ Hh].
      injection Hh as ->. now apply Hne.
    - destruct (pending (run _ evs)) as [| t l] eqn:E'; [reflexivity |].
      destruct (H1 t) as [_ Hh]; [left | discriminate Hh]. }
  split; [exact Hnone |].
  intros d. unfold advance. rewrite Hnone. reflexivity.
Qed.

Lemma unmount_cancels_the_login_timeout_witness :
  let left :=
    unmount_cleanup
      (run (handleLogin_resume None (handleLogin_submit (initial_page 0)))
         [time_passed (3 * 1000)]) in
  pending left = [] /\ forall d, st (advance d left) = st left.
Proof.
  apply (unmount_cancels_the_login_timeout (initial_page 0) [time_passed (3 * 1000)]).
  reflexivity.
Defined.

End LoginPageBoundFacts.

(** ** The three role checks side by side *)

Module RoleCheckFacts.

Import AuthProvider Guards AuthHooks Samples.

(** X30. With a non-empty list of allowed roles, whatever [ProtectedRoute]
    admits [RBACGuard] admits too, flag on or off; and for an authenticated
    session that is not loading and whose role is not the empty string,
    [ProtectedRoute] admits exactly when [useRequireRole] reports
    [isAllowed]. *)
Theorem role_checks_agree (env : Env) (ctx : AuthContextValue) (location : string)
    (roles : list string) (fallbackPath : option string) :
  roles <> [] ->
  (ProtectedRoute ctx location (Some roles) = children ->
   RBACGuard env ctx location roles fallbackPath = children)
  /\ (ctx_isLoading ctx = false -> ctx_isAuthenticated ctx = true ->
      ctx_role ctx <> Some EmptyString ->
      (ProtectedRoute ctx location (Some roles) = children
       <-> isAllowed (useRequireRole ctx roles) = true)).
Proof.
  intros Hne.
  assert (Hlen : (0 <? length roles)%nat = true).
  { destruct roles; [now contradiction Hne | reflexivity]. }
  split.
  - unfold ProtectedRoute, RBACGuard. rewrite Hlen. simpl.
    destruct (ctx_isLoading ctx); [discriminate |].
    destruct (ctx_isAuthenticated ctx); simpl; [| discriminate].
    destruct (rbacV2Enabled env); simpl; [| reflexivity].
    destruct (no_role (ctx_role ctx)); simpl; [discriminate |].
    destruct (role_in roles (ctx_role ctx)); simpl; [| discriminate].
    intros _. now destruct (bool_decide (ctx_role ctx = Some SUDO_ROLE)).
  - intros Hl Ha Hr. unfold ProtectedRoute, useRequireRole. rewrite Hl, Ha, Hlen. simpl.
    destruct (ctx_role ctx) as [r |]; simpl.
    + rewrite (bool_decide_eq_false_2 (r = EmptyString)) by (intros ->; now apply Hr).
      simpl. destruct (includes roles r); simpl; split; try reflexivity; discriminate.
    + split; discriminate.
Qed.

Lemma role_checks_agree_witness :
  (ProtectedRoute (authenticated_as staff_profile) "/staff" (Some [STAFF; ADMIN]) = children ->
   RBACGuard rbac_v2_on (authenticated_as staff_profile) "/staff" [STAFF; ADMIN] None
   = children)
  /\ (ctx_isLoading (authenticated_as staff_profile) = false ->
      ctx_isAuthenticated (authenticated_as staff_profile) = true ->
      ctx_role (authenticated_as staff_profile) <> Some EmptyString ->
      (ProtectedRoute (authenticated_as staff_profile) "/staff" (Some [STAFF; ADMIN]) = children
       <-> isAllowed (useRequireRole (authenticated_as staff_profile) [STAFF; ADMIN]) = true)).
Proof.
  apply (role_checks_agree rbac_v2_on (authenticated_as staff_profile) "/staff"
           [STAFF; ADMIN] None).
  discriminate.
Defined.

End RoleCheckFacts.
